(** * CCI-Tools demo backend: tile cache, tiled images and pyramid layout

    A shallow embedding of [backend/ccitbxws/utils.py], [cache.py] and
    [image.py].  Python integers are [Z]; sizes and clock readings, which
    are Python floats or integers, are exact rationals [Q]; dictionaries
    are [gmap]s; exceptions are values of [exn] carried by [outcome]. *)

From Stdlib Require Import ZArith QArith Qabs Lia Lqa List.
From stdpp Require Import gmap strings list fin_maps pretty.

#[local] Open Scope Z_scope.

(** ** Python outcomes *)

Inductive exn : Type :=
  | ValueError
  | ZeroDivisionError
  | AttributeError
  | AssertionError
  | KeyError
  | TypeError.

(** What a call does: it returns, it raises, or the model ran out of the
    fuel that bounds its loops. *)
Inductive outcome (A : Type) : Type :=
  | Returns (a : A)
  | Raises (e : exn)
  | OutOfFuel.

Arguments Returns {A} a.
Arguments Raises {A} e.
Arguments OutOfFuel {A}.

Definition obind {A B : Type} (m : outcome A) (k : A -> outcome B) : outcome B :=
  match m with
  | Returns a => k a
  | Raises e => Raises e
  | OutOfFuel => OutOfFuel
  end.

(** ** utils.py *)

Module Utils.

(** [int(num + denom - 1) // int(denom)]; Python's [//] is floor division,
    as [Z.div] is, and raises on a zero divisor. *)
Definition cardinal_div_round (num denom : Z) : outcome Z :=
  if denom =? 0 then Raises ZeroDivisionError
  else Returns ((num + denom - 1) / denom).

(** [while x % 2 == 0: n += 1; x //= 2] *)
Fixpoint cardinal_log2_loop (fuel : nat) (x n : Z) : outcome Z :=
  match fuel with
  | O => OutOfFuel
  | S fuel' =>
      if x mod 2 =? 0 then cardinal_log2_loop fuel' (x / 2) (n + 1)
      else Returns n
  end.

Definition cardinal_log2 (fuel : nat) (x : Z) : outcome Z :=
  cardinal_log2_loop fuel x 0.

(** Truth value of an optional integer argument: [None] and [0] are false. *)
Definition truthy_opt (o : option Z) : bool :=
  match o with
  | None => false
  | Some n => negb (n =? 0)
  end.

(** The natural series: halve [ts] while it is even and the half is not
    below [tile_size_min]; returns the final [(ts, num_levels)]. *)
Fixpoint natural_series (fuel : nat) (tile_size_min ts num_levels : Z)
  : outcome (Z * Z) :=
  match fuel with
  | O => OutOfFuel
  | S fuel' =>
      if ts mod 2 =? 0 then
        let ts2 := ts / 2 in
        if ts2 <? tile_size_min then Returns (ts, num_levels)
        else natural_series fuel' tile_size_min ts2 (num_levels + 1)
      else Returns (ts, num_levels)
  end.

(** [range(start, stop, step)] *)
Definition py_range (start stop step : Z) : outcome (list Z) :=
  if step =? 0 then Raises ValueError
  else
    let n := if 0 <? step
             then Z.max 0 ((stop - start + step - 1) / step)
             else Z.max 0 ((start - stop - step - 1) / (- step)) in
    Returns (map (fun i => start + Z.of_nat i * step) (seq 0 (Z.to_nat n))).

(** State of the brute-force scan: [(min_penalty, best_tile_size)]. *)
Definition scan_state : Type := Z * option Z.

(** One iteration of [for ts in range(...)]. *)
Definition scan_step (fuel : nat) (total_size : Z) (chunk_size num_levels_min : option Z)
    (int_div : bool) (st : scan_state) (ts : Z) : outcome scan_state :=
  let '(min_penalty, best_tile_size) := st in
  obind (if int_div
         then (if ts =? 0 then Raises ZeroDivisionError
               else Returns (negb (total_size mod ts =? 0)))
         else Returns false) (fun skip_div =>
  if skip_div then Returns st
  else
    obind (cardinal_div_round total_size ts) (fun num_tiles =>
    obind (if truthy_opt num_levels_min
           then obind (cardinal_log2 fuel (num_tiles * ts)) (fun num_levels =>
                  Returns (num_levels <? default 0 num_levels_min))
           else Returns false) (fun skip_levels =>
    if skip_levels then Returns st
    else
      let total_size_excess := ts * num_tiles - total_size in
      let penalty := total_size_excess in
      obind (if truthy_opt chunk_size
             then obind (cardinal_div_round ts (default 0 chunk_size)) (fun num_chunks =>
                    let tile_size_excess := ts * num_chunks - ts in
                    Returns (penalty + tile_size_excess))
             else Returns penalty) (fun penalty =>
      if penalty <? min_penalty then Returns (penalty, Some ts)
      else Returns st)))).

Fixpoint scan (fuel : nat) (total_size : Z) (chunk_size num_levels_min : option Z)
    (int_div : bool) (st : scan_state) (candidates : list Z) : outcome scan_state :=
  match candidates with
  | [] => Returns st
  | ts :: rest =>
      obind (scan_step fuel total_size chunk_size num_levels_min int_div st ts)
            (fun st' => scan fuel total_size chunk_size num_levels_min int_div st' rest)
  end.

Definition compute_tile_size (fuel : nat) (total_size : Z)
    (tile_size_min tile_size_max tile_size_step : Z)
    (chunk_size num_levels_min : option Z) (int_div : bool) : outcome Z :=
  obind (natural_series fuel tile_size_min total_size 0) (fun '(ts, num_levels) =>
  if (ts <=? tile_size_max)
     && (negb (truthy_opt num_levels_min) || (default 0 num_levels_min <=? num_levels))
  then Returns ts
  else
    let min_penalty := 10 * total_size in
    obind (py_range tile_size_min (tile_size_max + 1) tile_size_step) (fun candidates =>
    obind (scan fuel total_size chunk_size num_levels_min int_div (min_penalty, None) candidates)
      (fun '(_, best_tile_size) =>
    match best_tile_size with
    | None => Raises ValueError
    | Some b => if b =? 0 then Raises ValueError else Returns b
    end))).

(** Which branch produced the result of [compute_tile_size]: the natural
    series returns at the first [return ts]. *)
Definition via_natural_series (fuel : nat) (total_size tile_size_min tile_size_max : Z)
    (num_levels_min : option Z) : bool :=
  match natural_series fuel tile_size_min total_size 0 with
  | Returns (ts, num_levels) =>
      (ts <=? tile_size_max)
      && (negb (truthy_opt num_levels_min) || (default 0 num_levels_min <=? num_levels))
  | _ => false
  end.

(** The defaults of the signature: [tile_size_min=180, tile_size_max=512,
    tile_size_step=2]. *)
Definition compute_tile_size_default (fuel : nat) (total_size : Z)
    (chunk_size : option Z) (int_div : bool) : outcome Z :=
  compute_tile_size fuel total_size 180 512 2 chunk_size None int_div.

End Utils.

(** ** Python values *)

(** The values the cache is used with: [None], integers, strings and
    references to plain objects (a tile: an image or an array), compared by
    identity.  None of them has a [restore] attribute; an object reference
    has the default truth value. *)
Inductive pyval : Type :=
  | PyNone
  | PyInt (n : Z)
  | PyStr (s : string)
  | PyObj (id : nat).

#[global] Instance pyval_eq_dec : EqDecision pyval.
Proof. solve_decision. Defined.

Definition pyval_enc (v : pyval) : unit + Z + string + nat :=
  match v with
  | PyNone => inl (inl (inl tt))
  | PyInt n => inl (inl (inr n))
  | PyStr s => inl (inr s)
  | PyObj i => inr i
  end.

Definition pyval_dec (x : unit + Z + string + nat) : pyval :=
  match x with
  | inl (inl (inl _)) => PyNone
  | inl (inl (inr n)) => PyInt n
  | inl (inr s) => PyStr s
  | inr i => PyObj i
  end.

#[global] Instance pyval_countable : Countable pyval.
Proof. apply (inj_countable' pyval_enc pyval_dec). by intros []. Defined.

(** [bool(v)] *)
Definition truthy (v : pyval) : bool :=
  match v with
  | PyNone => false
  | PyInt n => negb (n =? 0)
  | PyStr s => negb (String.eqb s EmptyString)
  | PyObj _ => true
  end.

(** ** cache.py *)

Module Cache.

(** *** CacheStore *)

Record CacheStore : Type := {
  store_value : pyval -> pyval -> pyval * Q;
  restore_value : pyval -> pyval -> pyval;
  discard_value : pyval -> pyval -> unit
}.

Definition MemoryCacheStore : CacheStore := {|
  store_value := fun _ value => (value, 1%Q);
  restore_value := fun _ stored_value => stored_value;
  discard_value := fun _ _ => tt
|}.

(** *** Cache.Item *)

Record Item : Type := mkItem {
  key : pyval;
  stored_value : pyval;
  stored_size : Q;
  creation_time : Q;
  access_time : Q;
  access_count : Z
}.

(** [Item.__init__] *)
Definition Item_init : Item :=
  {| key := PyNone; stored_value := PyNone; stored_size := 0%Q;
     creation_time := 0%Q; access_time := 0%Q; access_count := 0 |}.

#[global] Instance Item_inhabited : Inhabited Item := populate Item_init.

(** The replacement policies: the sort key of an item. *)
Definition POLICY_LRU (item : Item) : Q := access_time item.
Definition POLICY_MRU (item : Item) : Q := (- access_time item)%Q.
Definition POLICY_LFU (item : Item) : Q := inject_Z (access_count item).
Definition POLICY_RR (item : Item) : Q := inject_Z (access_count item mod 2).

(** *** The cache object

    An [Item] is a mutable object that [_item_dict] and [_item_list] both
    refer to; [objects] holds the items this cache has created, and a
    reference is an index into it. *)
#[warnings="-register-all"]
Inductive Cache : Type := mkCache {
  _store : CacheStore;
  _capacity : Q;
  _threshold : Q;
  _policy : Item -> Q;
  _parent_cache : option Cache;
  _size : Q;
  _max_size : Q;
  _item_dict : gmap pyval nat;
  _item_list : list nat;
  objects : list Item
}.

(** [Cache.__init__] *)
Definition Cache_init (store : CacheStore) (capacity threshold : Q)
    (policy : Item -> Q) (parent_cache : option Cache) : Cache :=
  {| _store := store; _capacity := capacity; _threshold := threshold;
     _policy := policy; _parent_cache := parent_cache;
     _size := 0%Q; _max_size := (capacity * threshold)%Q;
     _item_dict := ∅; _item_list := []; objects := [] |}.

(** The length of the chain of parent caches. *)
Fixpoint depth (c : Cache) : nat :=
  match c with
  | mkCache _ _ _ _ parent _ _ _ _ _ =>
      match parent with
      | None => O
      | Some p => S (depth p)
      end
  end.

(** [if self._parent_cache:] a cache object is true. *)
Definition has_parent (c : Cache) : bool :=
  match _parent_cache c with
  | Some _ => true
  | None => false
  end.

Definition set_parent (c : Cache) (p : Cache) : Cache :=
  mkCache (_store c) (_capacity c) (_threshold c) (_policy c) (Some p)
          (_size c) (_max_size c) (_item_dict c) (_item_list c) (objects c).

Definition set_size (c : Cache) (s : Q) : Cache :=
  mkCache (_store c) (_capacity c) (_threshold c) (_policy c) (_parent_cache c)
          s (_max_size c) (_item_dict c) (_item_list c) (objects c).

Definition set_item_dict (c : Cache) (d : gmap pyval nat) : Cache :=
  mkCache (_store c) (_capacity c) (_threshold c) (_policy c) (_parent_cache c)
          (_size c) (_max_size c) d (_item_list c) (objects c).

Definition set_item_list (c : Cache) (l : list nat) : Cache :=
  mkCache (_store c) (_capacity c) (_threshold c) (_policy c) (_parent_cache c)
          (_size c) (_max_size c) (_item_dict c) l (objects c).

Definition set_objects (c : Cache) (o : list Item) : Cache :=
  mkCache (_store c) (_capacity c) (_threshold c) (_policy c) (_parent_cache c)
          (_size c) (_max_size c) (_item_dict c) (_item_list c) o.

(** *** The process clock

    [time.clock()] is an input: [clock w n] is what its [n]-th call from
    now returns; [_T0] is the reading taken when the module was loaded. *)
Record World : Type := mkWorld {
  _T0 : Q;
  clock : nat -> Q
}.

(** *** Computations on a cache

    A method is run on the world and the cache object; it yields both as
    it left them, and its outcome.  An exception leaves the state as it was
    when it was raised.  The re-entrant lock of the source has no effect in
    a single thread and is left out. *)
Definition M (A : Type) : Type := World * Cache -> World * Cache * outcome A.

Definition ret {A : Type} (a : A) : M A := fun s => (s, Returns a).

Definition raise {A : Type} (e : exn) : M A := fun s => (s, Raises e).

Definition out_of_fuel {A : Type} : M A := fun s => (s, OutOfFuel).

Definition bind {A B : Type} (m : M A) (k : A -> M B) : M B :=
  fun s =>
    match m s with
    | (s', Returns a) => k a s'
    | (s', Raises e) => (s', Raises e)
    | (s', OutOfFuel) => (s', OutOfFuel)
    end.

Notation "'let*' x ':=' m 'in' k" := (bind m (fun x => k))
  (at level 10, x name, m at level 100, k at level 200).
Notation "m ';;;' k" := (bind m (fun _ => k))
  (at level 100, k at level 200, right associativity).

Definition get_self : M Cache := fun s => (s, Returns (snd s)).

Definition modify_self (f : Cache -> Cache) : M unit :=
  fun s => ((fst s, f (snd s)), Returns tt).

(** [time.clock()] *)
Definition time_clock : M Q :=
  fun s =>
    let w := fst s in
    ((mkWorld (_T0 w) (fun n => clock w (S n)), snd s), Returns (clock w O)).

Definition get_T0 : M Q := fun s => (s, Returns (_T0 (fst s))).

(** Run a method of [self._parent_cache] on the parent object. *)
Definition on_parent {A : Type} (m : M A) : M A :=
  fun s =>
    match _parent_cache (snd s) with
    | None => (s, Raises AttributeError)
    | Some p =>
        let '((w', p'), r) := m (fst s, p) in
        ((w', set_parent (snd s) p'), r)
    end.

(** [for x in xs: body x] *)
Fixpoint for_each {A : Type} (xs : list A) (body : A -> M unit) : M unit :=
  match xs with
  | [] => ret tt
  | x :: rest => body x ;;; for_each rest body
  end.

(** Reading and updating the item object behind a reference. *)
Definition read_item (l : nat) : M Item :=
  fun s => (s, Returns (objects (snd s) !!! l)).

Definition write_item (l : nat) (item : Item) : M unit :=
  modify_self (fun c => set_objects c (<[l := item]> (objects c))).

(** [Cache.Item()] *)
Definition new_item : M nat :=
  fun s =>
    let c := snd s in
    ((fst s, set_objects c (objects c ++ [Item_init])), Returns (length (objects c))).

(** [Item.access] *)
Definition Item_access (l : nat) : M unit :=
  let* t := time_clock in
  let* t0 := get_T0 in
  let* item := read_item l in
  write_item l (mkItem (key item) (stored_value item) (stored_size item)
                       (creation_time item) (t - t0)%Q (access_count item + 1)).

(** [Item.store] *)
Definition Item_store (l : nat) (store : CacheStore) (k value : pyval) : M unit :=
  let* item := read_item l in
  write_item l (mkItem k (stored_value item) (stored_size item)
                       (creation_time item) (access_time item) 0) ;;;
  Item_access l ;;;
  let* item := read_item l in
  let '(sv, ssz) := store_value store k value in
  write_item l (mkItem (key item) sv ssz
                       (creation_time item) (access_time item) (access_count item)).

(** [Item.restore] *)
Definition Item_restore (l : nat) (store : CacheStore) (k : pyval) : M pyval :=
  Item_access l ;;;
  let* item := read_item l in
  ret (restore_value store k (stored_value item)).

(** [Item.discard] *)
Definition Item_discard (l : nat) (store : CacheStore) (k : pyval) : M unit :=
  let* item := read_item l in
  let _ := discard_value store k (stored_value item) in
  write_item l Item_init.

(** [value.restore(...)] on a cached value: no [pyval] has that attribute. *)
Definition pyval_restore (v : pyval) (store : CacheStore) (k : pyval) : M pyval :=
  raise AttributeError.

(** [list.remove(x)]: drops the first occurrence. *)
Fixpoint list_remove_first (x : nat) (l : list nat) : list nat :=
  match l with
  | [] => []
  | y :: ys => if decide (x = y) then ys else y :: list_remove_first x ys
  end.

(** [list.sort(key=f)]: a stable sort, ascending. *)
Fixpoint insert_by (f : nat -> Q) (x : nat) (l : list nat) : list nat :=
  match l with
  | [] => [x]
  | y :: ys => if Qle_bool (f x) (f y) then x :: y :: ys else y :: insert_by f x ys
  end.

Definition sort_by (f : nat -> Q) (l : list nat) : list nat :=
  foldr (insert_by f) [] l.

(** The sweep of [trim] over the sorted items: the keys of the victims. *)
Fixpoint select_victims (objs : list Item) (extra_size max_size size : Q)
    (items : list nat) : list pyval :=
  match items with
  | [] => []
  | l :: rest =>
      let item := objs !!! l in
      if Qlt_le_dec max_size (size + extra_size)
      then key item :: select_victims objs extra_size max_size (size - stored_size item) rest
      else select_victims objs extra_size max_size size rest
  end.

(** [_add_item] *)
Definition _add_item (l : nat) : M unit :=
  let* item := read_item l in
  modify_self (fun c => set_item_dict c (<[key item := l]> (_item_dict c))) ;;;
  modify_self (fun c => set_item_list c (_item_list c ++ [l])).

(** [_remove_item]: [dict.pop] raises [KeyError] on a missing key and
    [list.remove] raises [ValueError] on a missing element. *)
Definition _remove_item (l : nat) : M unit :=
  let* item := read_item l in
  let* c := get_self in
  match _item_dict c !! key item with
  | None => raise KeyError
  | Some _ =>
      modify_self (fun c => set_item_dict c (delete (key item) (_item_dict c))) ;;;
      let* c := get_self in
      if decide (l ∈ _item_list c)
      then modify_self (fun c => set_item_list c (list_remove_first l (_item_list c)))
      else raise ValueError
  end.

(** The methods of a cache object, as its child calls them. *)
Record methods : Type := mkMethods {
  m_get_value : pyval -> M pyval;
  m_put_value : pyval -> pyval -> M unit;
  m_remove_value : pyval -> M unit;
  m_clear : bool -> M unit
}.

Section Methods.

(** The methods of [self._parent_cache]. *)
Variable parent : methods.

Definition get_value_body (k : pyval) : M pyval :=
  let* c := get_self in
  match _item_dict c !! k with
  | Some l => Item_restore l (_store c) k
  | None =>
      match _parent_cache c with
      | Some p =>
          let* item := on_parent (m_get_value parent k) in
          if truthy item then pyval_restore item (_store p) k
          else ret PyNone
      | None => ret PyNone
      end
  end.

Definition remove_value_body (k : pyval) : M unit :=
  let* c := get_self in
  (if has_parent c then on_parent (m_remove_value parent k) else ret tt) ;;;
  let* c := get_self in
  match _item_dict c !! k with
  | Some l =>
      _remove_item l ;;;
      let* item := read_item l in
      modify_self (fun c => set_size c (_size c - stored_size item)%Q) ;;;
      Item_discard l (_store c) k
  | None => ret tt
  end.

(** The body of the second loop of [trim]: one victim is evicted. *)
Definition trim_evict (k : pyval) : M unit :=
  let* c := get_self in
  if has_parent c then
    let* value := get_value_body k in
    remove_value_body k ;;;
    if truthy value then on_parent (m_put_value parent k value) else ret tt
  else remove_value_body k.

Definition trim_body (extra_size : Q) : M unit :=
  modify_self (fun c =>
    set_item_list c (sort_by (fun l => _policy c (objects c !!! l)) (_item_list c))) ;;;
  let* c := get_self in
  let keys := select_victims (objects c) extra_size (_max_size c) (_size c)
                             (_item_list c) in
  for_each keys trim_evict.

Definition put_value_body (k value : pyval) : M unit :=
  let* c := get_self in
  (if has_parent c then on_parent (m_remove_value parent k) else ret tt) ;;;
  let* c := get_self in
  let* l := match _item_dict c !! k with
            | Some l =>
                _remove_item l ;;;
                let* item := read_item l in
                modify_self (fun c => set_size c (_size c - stored_size item)%Q) ;;;
                Item_discard l (_store c) k ;;;
                ret l
            | None => new_item
            end in
  Item_store l (_store c) k value ;;;
  let* item := read_item l in
  let* c := get_self in
  (if Qlt_le_dec (_max_size c) (_size c + stored_size item)
   then trim_body (stored_size item) else ret tt) ;;;
  let* item := read_item l in
  modify_self (fun c => set_size c (_size c + stored_size item)%Q) ;;;
  _add_item l.

(** The body of the loop of [clear]. *)
Definition clear_key (clear_parent : bool) (k : pyval) : M unit :=
  let* c := get_self in
  (if has_parent c then
     if negb clear_parent then
       let* value := get_value_body k in
       if truthy value then on_parent (m_put_value parent k value) else ret tt
     else ret tt
   else ret tt) ;;;
  remove_value_body k.

(** [keys = list(self._item_dict.keys())]: the keys in the order of the
    dictionary, here the order of the map. *)
Definition clear_body (clear_parent : bool) : M unit :=
  let* c := get_self in
  (if has_parent c then
     if clear_parent then on_parent (m_clear parent clear_parent) else ret tt
   else ret tt) ;;;
  let* c := get_self in
  let keys := (map_to_list (_item_dict c)).*1 in
  for_each keys (clear_key clear_parent).

End Methods.

(** A cache with no parent never calls these. *)
Definition no_methods : methods :=
  mkMethods (fun _ => out_of_fuel) (fun _ _ => out_of_fuel)
            (fun _ => out_of_fuel) (fun _ => out_of_fuel).

(** The methods of a cache whose chain of parents has length at most [n]. *)
Fixpoint methods_at (n : nat) : methods :=
  match n with
  | O => mkMethods (get_value_body no_methods) (put_value_body no_methods)
                   (remove_value_body no_methods) (clear_body no_methods)
  | S n' =>
      let parent := methods_at n' in
      mkMethods (get_value_body parent) (put_value_body parent)
                (remove_value_body parent) (clear_body parent)
  end.

Definition parent_methods (c : Cache) : methods :=
  match depth c with
  | O => no_methods
  | S n => methods_at n
  end.

(** The public methods. *)
Definition get_value (k : pyval) : M pyval :=
  fun s => get_value_body (parent_methods (snd s)) k s.

Definition put_value (k value : pyval) : M unit :=
  fun s => put_value_body (parent_methods (snd s)) k value s.

Definition remove_value (k : pyval) : M unit :=
  fun s => remove_value_body (parent_methods (snd s)) k s.

Definition trim (extra_size : Q) : M unit :=
  fun s => trim_body (parent_methods (snd s)) extra_size s.

Definition clear (clear_parent : bool) : M unit :=
  fun s => clear_body (parent_methods (snd s)) clear_parent s.

(** The keys resident in a cache. *)
Definition resident (c : Cache) : gset pyval := dom (_item_dict c).

(** *** Sequences of calls

    A caller that goes on after an exception: the state is the one the
    exception left. *)
Inductive op : Type :=
  | Put (k value : pyval)
  | Remove (k : pyval)
  | Get (k : pyval)
  | Trim (extra_size : Q)
  | Clear (clear_parent : bool).

Definition run_op (o : op) : M unit :=
  match o with
  | Put k value => put_value k value
  | Remove k => remove_value k
  | Get k => get_value k ;;; ret tt
  | Trim extra_size => trim extra_size
  | Clear clear_parent => clear clear_parent
  end.

Fixpoint run_ops (ops : list op) (s : World * Cache) : World * Cache :=
  match ops with
  | [] => s
  | o :: rest => run_ops rest (fst (run_op o s))
  end.

(** *** Specification vocabulary *)

Definition Qsum (l : list Q) : Q := foldr Qplus 0%Q l.

Arguments Qsum : simpl never.

(** The stored size of the item behind a reference. *)
Definition stored (c : Cache) (l : nat) : Q := stored_size (objects c !!! l).



(** One cache object is consistent: the list holds each item once, the
    dictionary maps exactly the keys of the listed items to them, and
    [_size] is the sum of their stored sizes. *)
Definition tier_ok (c : Cache) : Prop :=
  NoDup (_item_list c)
  /\ (forall k l, _item_dict c !! k = Some l <->
                  l ∈ _item_list c /\ key (objects c !!! l) = k)
  /\ (forall l, l ∈ _item_list c -> (l < length (objects c))%nat)
  /\ (_size c == Qsum (stored c <$> _item_list c))%Q.

(** A cache and all its parents are consistent, and no key is resident in
    a cache and in its parent. *)
Fixpoint chain_ok (c : Cache) : Prop :=
  match c with
  | mkCache st cap thr pol parent sz mx d l o =>
      tier_ok (mkCache st cap thr pol parent sz mx d l o)
      /\ match parent with
         | None => True
         | Some p => chain_ok p /\ dom d ## resident p
         end
  end.

(** The keys resident in the parent of a cache, if it has one. *)
Definition parent_resident (c : Cache) : gset pyval :=
  match _parent_cache c with
  | Some p => resident p
  | None => ∅
  end.

(** The chain is consistent but for the key [k], which the parent may hold
    too: the state [clear] is in between copying a value up and removing
    it. *)
Definition chain_ok_but (k : pyval) (c : Cache) : Prop :=
  tier_ok c
  /\ match _parent_cache c with
     | None => True
     | Some p => chain_ok p /\ (resident c ∖ {[k]}) ## resident p
     end.

(** The parent of a cache, if it has one, has depth [d]. *)
Definition parent_depth (c : Cache) (d : option nat) : Prop :=
  match _parent_cache c with
  | Some p => d = Some (depth p)
  | None => True
  end.

(** The world after one reading of the clock. *)
Definition tick (w : World) : World := mkWorld (_T0 w) (fun n => clock w (S n)).

(** An item after [access] at time [t]. *)
Definition touch (t : Q) (item : Item) : Item :=
  mkItem (key item) (stored_value item) (stored_size item)
         (creation_time item) t (access_count item + 1).

(** The state after an item has been taken out of the dictionary and the
    list, its size subtracted, and the item object reset. *)
Definition detached (c : Cache) (l : nat) : Cache :=
  set_objects
    (set_size
       (set_item_list (set_item_dict c (delete (key (objects c !!! l)) (_item_dict c)))
                      (list_remove_first l (_item_list c)))
       (_size c - stored_size (objects c !!! l))%Q)
    (<[l := Item_init]> (objects c)).

(** The state after the item behind [l] has been accessed at time [t]. *)
Definition touched (c : Cache) (l : nat) (t : Q) : Cache :=
  set_objects c (<[l := touch t (objects c !!! l)]> (objects c)).

(** The reading of the clock an access takes. *)
Definition now (w : World) : Q := (clock w O - _T0 w)%Q.

(** The state after a stored item has been entered in the dictionary and
    the list and its size added. *)
Definition attached (c : Cache) (l : nat) : Cache :=
  set_item_list
    (set_item_dict (set_size c (_size c + stored_size (objects c !!! l))%Q)
                   (<[key (objects c !!! l) := l]> (_item_dict c)))
    (_item_list c ++ [l]).

(** What no method changes. *)
Definition static (c c' : Cache) : Prop :=
  _store c' = _store c /\ _policy c' = _policy c
  /\ _max_size c' = _max_size c /\ depth c' = depth c.

(** Two states of an item that agree on what was stored under which key. *)
Definition same_kvs (item' item : Item) : Prop :=
  key item' = key item /\ stored_value item' = stored_value item
  /\ stored_size item' = stored_size item.

(** [c'] holds some of the items of [c], as they were stored, and no item
    outside the list of [c] was touched. *)
Definition shrink (c c' : Cache) : Prop :=
  static c c'
  /\ length (objects c') = length (objects c)
  /\ _item_list c' ⊆+ _item_list c
  /\ (forall l, l ∈ _item_list c' -> same_kvs (objects c' !!! l) (objects c !!! l))
  /\ (forall l, l ∉ _item_list c -> objects c' !!! l = objects c !!! l).

Definition get_post (c : Cache) (k : pyval) (r : outcome pyval) (c' : Cache) : Prop :=
  r <> OutOfFuel
  /\ chain_ok c' /\ shrink c c'
  /\ _item_list c' = _item_list c /\ _item_dict c' = _item_dict c /\ _size c' = _size c
  /\ (forall l, _item_dict c !! k = Some l ->
        r = Returns (restore_value (_store c) k (stored_value (objects c !!! l))))
  /\ (_item_dict c !! k = None -> forall v, r = Returns v -> v = PyNone).

Definition remove_post (c : Cache) (k : pyval) (r : outcome unit) (c' : Cache) : Prop :=
  r = Returns tt
  /\ chain_ok c' /\ shrink c c'
  /\ resident c' = resident c ∖ {[k]}
  /\ _item_list c' = match _item_dict c !! k with
                     | Some l => list_remove_first l (_item_list c)
                     | None => _item_list c
                     end
  /\ parent_resident c' ⊆ parent_resident c ∖ {[k]}.

Definition trim_post (c : Cache) (extra_size : Q) (r : outcome unit) (c' : Cache) : Prop :=
  r = Returns tt
  /\ chain_ok c' /\ shrink c c'
  /\ (_item_list c' = [] \/ (_size c' + extra_size <= _max_size c)%Q)
  /\ parent_resident c' ⊆ parent_resident c ∪ resident c.

Definition put_post (c : Cache) (k value : pyval) (r : outcome unit) (c' : Cache) : Prop :=
  r = Returns tt
  /\ chain_ok c' /\ static c c'
  /\ (exists l, _item_dict c' !! k = Some l
          /\ stored_value (objects c' !!! l) = fst (store_value (_store c) k value)
          /\ stored_size (objects c' !!! l) = snd (store_value (_store c) k value)
          /\ forall l', l' ∈ _item_list c' ->
               l' = l \/ (l' ∈ _item_list c
                          /\ same_kvs (objects c' !!! l') (objects c !!! l')))
  /\ ((_size c' <= _max_size c)%Q
      \/ (_size c' == snd (store_value (_store c) k value))%Q).

Definition clear_post (c : Cache) (r : outcome unit) (c' : Cache) : Prop :=
  r = Returns tt
  /\ chain_ok c' /\ static c c'
  /\ _item_list c' = []
  /\ parent_resident c' ⊆ parent_resident c.

(** The methods [ms] behave on every consistent cache of depth [d]. *)
Definition ok_methods (ms : methods) (d : nat) : Prop :=
  forall w c, depth c = d -> chain_ok c ->
    (forall k, get_post c k (snd (m_get_value ms k (w, c)))
                 (snd (fst (m_get_value ms k (w, c)))))
    /\ (forall k, remove_post c k (snd (m_remove_value ms k (w, c)))
                    (snd (fst (m_remove_value ms k (w, c)))))
    /\ (forall k v, put_post c k v (snd (m_put_value ms k v (w, c)))
                      (snd (fst (m_put_value ms k v (w, c)))))
    /\ (forall b, clear_post c (snd (m_clear ms b (w, c)))
                    (snd (fst (m_clear ms b (w, c))))).


(** The depth of the parent of a cache, if it has one. *)
Definition parent_depth_of (c : Cache) : option nat :=
  match depth c with
  | O => None
  | S n => Some n
  end.

(** A call other than [get_value]. *)
Definition updates (o : op) : Prop :=
  match o with
  | Get _ => False
  | _ => True
  end.

(** A computation that uses the cache through its methods only: it keeps
    the chain consistent and changes nothing that no method changes. *)
Definition uses_cache {A : Type} (m : M A) : Prop :=
  forall s, chain_ok (snd s) ->
    chain_ok (snd (fst (m s))) /\ static (snd s) (snd (fst (m s))).

(** The store restores what it stored. *)
Definition lawful_store (st : CacheStore) : Prop :=
  forall k v, restore_value st k (fst (store_value st k v)) = v.





End Cache.

(** ** image.py *)

Module Image.

Import Cache.

(** What the [uuid] module gives a process: [str(uuid.uuid4)] is the
    printed form of the function object, one fixed string; [uuid.uuid4()]
    draws identifiers, here the sequence of the draws to come. *)
Record Uuid : Type := mkUuid {
  str_uuid4 : string;
  uuid4_draws : nat -> string
}.

(** *** AbstractTiledImage *)

Record AbstractTiledImage : Type := mkAbstractTiledImage {
  _width : Z;
  _height : Z;
  _tile_width : Z;
  _tile_height : Z;
  _num_tiles_x : Z;
  _num_tiles_y : Z;
  _id : string;
  _mode : option string;
  _format : option string
}.

(** Truth value of an optional string argument. *)
Definition truthy_str (o : option string) : bool :=
  match o with
  | None => false
  | Some s => negb (String.eqb s EmptyString)
  end.

(** [AbstractTiledImage.__init__] *)
Definition AbstractTiledImage_init (fuel : nat) (u : Uuid) (size : Z * Z)
    (tile_size num_tiles : option (Z * Z)) (mode format image_id : option string)
  : outcome AbstractTiledImage :=
  let width := fst size in
  let height := snd size in
  obind (match tile_size with
         | Some ts => Returns (fst ts)
         | None => Utils.compute_tile_size_default fuel width None false
         end) (fun tile_width =>
  obind (match tile_size with
         | Some ts => Returns (snd ts)
         | None => Utils.compute_tile_size_default fuel height None false
         end) (fun tile_height =>
  obind (match num_tiles with
         | Some nt => Returns (fst nt)
         | None => Utils.cardinal_div_round width tile_width
         end) (fun num_tiles_x =>
  obind (match num_tiles with
         | Some nt => Returns (snd nt)
         | None => Utils.cardinal_div_round height tile_height
         end) (fun num_tiles_y =>
  let id := if truthy_str image_id then default EmptyString image_id else str_uuid4 u in
  Returns (mkAbstractTiledImage width height tile_width tile_height
                                num_tiles_x num_tiles_y id mode format))))).

Definition tile_size (img : AbstractTiledImage) : Z * Z :=
  (_tile_width img, _tile_height img).

Definition num_tiles (img : AbstractTiledImage) : Z * Z :=
  (_num_tiles_x img, _num_tiles_y img).

(** ['%s/%d/%d' % (self.id, tile_y, tile_x)] *)
Definition get_tile_id (img : AbstractTiledImage) (tile_x tile_y : Z) : string :=
  _id img +:+ "/" +:+ pretty tile_y +:+ "/" +:+ pretty tile_x.

(** *** OpImage

    The tile cache is a shared object: it is the cache of the state, and
    the image records whether it holds a reference to it. *)
Record OpImage : Type := mkOpImage {
  base : AbstractTiledImage;
  _tile_cache : bool
}.

(** A computation of an image: the state of the cache methods, and a count
    of the calls of [compute_tile] made so far. *)
Definition IM (A : Type) : Type :=
  nat * (World * Cache) -> nat * (World * Cache) * outcome A.

Definition lift {A : Type} (m : M A) : IM A :=
  fun s => let '(s', r) := m (snd s) in ((fst s, s'), r).

(** A call of the abstract method [compute_tile]. *)
Definition call_compute_tile (compute_tile : Z -> Z -> Z * Z * Z * Z -> M pyval)
    (tile_x tile_y : Z) (rectangle : Z * Z * Z * Z) : IM pyval :=
  fun s => let '(s', r) := compute_tile tile_x tile_y rectangle (snd s) in
           ((S (fst s), s'), r).

Definition ibind {A B : Type} (m : IM A) (k : A -> IM B) : IM B :=
  fun s =>
    match m s with
    | (s', Returns a) => k a s'
    | (s', Raises e) => (s', Raises e)
    | (s', OutOfFuel) => (s', OutOfFuel)
    end.

Definition iret {A : Type} (a : A) : IM A := fun s => (s, Returns a).

(** [OpImage.get_tile] *)
Definition get_tile (img : OpImage)
    (compute_tile : Z -> Z -> Z * Z * Z * Z -> M pyval)
    (tile_x tile_y : Z) : IM pyval :=
  let cache := _tile_cache img in
  let tile_id := PyStr (get_tile_id (base img) tile_x tile_y) in
  ibind (if cache then lift (get_value tile_id) else iret PyNone) (fun tile =>
  if cache && negb (bool_decide (tile = PyNone)) then iret tile
  else
    let '(tw, th) := tile_size (base img) in
    ibind (call_compute_tile compute_tile tile_x tile_y (tw * tile_x, th * tile_y, tw, th))
      (fun tile =>
    ibind (if cache then lift (put_value tile_id tile) else iret tt) (fun _ =>
    iret tile))).

(** *** Arrays

    A two-dimensional array: its shape (rows, columns), its element type,
    its chunking if it has one, and its elements by row and column. *)
Record ndarray : Type := mkNdarray {
  shape : Z * Z;
  dtype : string;
  chunks : option (Z * Z);
  at_index : Z -> Z -> Z
}.

(** [slice(start, stop, step).indices(n)]: the first index and the number
    of indices of a slice of a dimension of length [n]. *)
Definition slice_adjust (start stop step n : Z) : outcome (Z * Z) :=
  if step =? 0 then Raises ValueError
  else
    let clip i :=
      if i <? 0 then
        (if i + n <? 0 then (if step <? 0 then -1 else 0) else i + n)
      else if n <=? i then (if step <? 0 then n - 1 else n)
      else i in
    let start' := clip start in
    let stop' := clip stop in
    let len :=
      if step <? 0
      then (if stop' <? start' then (start' - stop' - 1) / (- step) + 1 else 0)
      else (if start' <? stop' then (stop' - start' - 1) / step + 1 else 0) in
    Returns (start', len).

(** [a[..., y0:y1:sy, x0:x1:sx]] *)
Definition strided_slice (a : ndarray) (y0 y1 sy x0 x1 sx : Z) : outcome ndarray :=
  obind (slice_adjust y0 y1 sy (fst (shape a))) (fun '(ys, ylen) =>
  obind (slice_adjust x0 x1 sx (snd (shape a))) (fun '(xs, xlen) =>
  Returns (mkNdarray (ylen, xlen) (dtype a) None
                     (fun r c => at_index a (ys + r * sy) (xs + c * sx))))).

(** *** FastNdarrayDownsamplingImage *)

Record FastNdarrayDownsamplingImage : Type := mkFastNdarrayDownsamplingImage {
  fast_base : OpImage;
  _array : ndarray;
  _z_index : Z;
  _zoom : Z
}.

(** [FastNdarrayDownsamplingImage.__init__] *)
Definition FastNdarrayDownsamplingImage_init (fuel : nat) (u : Uuid) (array : ndarray)
    (tile_size : Z * Z) (z_index num_levels : Z) (tile_cache : bool)
  : outcome FastNdarrayDownsamplingImage :=
  if num_levels - z_index - 1 <? 0 then Raises ValueError
  else
    let zoom := Z.shiftl 1 (num_levels - z_index - 1) in
    let image_id := uuid4_draws u O +:+ "-L" +:+ pretty z_index in
    let source_width := snd (shape array) in
    let source_height := fst (shape array) in
    let width := source_width / zoom in
    let height := source_height / zoom in
    let '(tile_width, tile_height) := tile_size in
    obind (Utils.cardinal_div_round width tile_width) (fun num_tiles_x =>
    obind (Utils.cardinal_div_round height tile_height) (fun num_tiles_y =>
    obind (AbstractTiledImage_init fuel u (width, height) (Some (tile_width, tile_height))
             (Some (num_tiles_x, num_tiles_y)) (Some (dtype array)) None (Some image_id))
      (fun b =>
    Returns (mkFastNdarrayDownsamplingImage (mkOpImage b tile_cache) array z_index zoom)))).

(** [FastNdarrayDownsamplingImage.compute_tile] *)
Definition compute_tile (img : FastNdarrayDownsamplingImage) (tile_x tile_y : Z)
    (rectangle : Z * Z * Z * Z) : outcome ndarray :=
  let '(x, y, w, h) := rectangle in
  let zoom := _zoom img in
  let x := x * zoom in
  let y := y * zoom in
  let w := w * zoom in
  let h := h * zoom in
  obind (strided_slice (_array img) y (y + h) zoom x (x + w) zoom) (fun tile =>
  let actual_tile_size := (snd (shape tile), fst (shape tile)) in
  if decide (tile_size (base (fast_base img)) = actual_tile_size)
  then Returns tile
  else Raises AssertionError).

(** The slice [compute_tile] takes for a rectangle, before its assertion. *)
Definition zoomed_slice (img : FastNdarrayDownsamplingImage)
    (rectangle : Z * Z * Z * Z) : outcome ndarray :=
  let '(x, y, w, h) := rectangle in
  let zoom := _zoom img in
  strided_slice (_array img) (y * zoom) (y * zoom + h * zoom) zoom
                (x * zoom) (x * zoom + w * zoom) zoom.

(** The rectangle [OpImage.get_tile] passes to [compute_tile]. *)
Definition tile_rectangle (img : AbstractTiledImage) (tile_x tile_y : Z) : Z * Z * Z * Z :=
  let '(tw, th) := tile_size img in
  (tw * tile_x, th * tile_y, tw, th).

(** *** ImagePyramid.compute_layout *)

(** The [while True] loop that derives [num_levels]. *)
Fixpoint count_levels (fuel : nat) (tile_width tile_height max_width max_height : Z)
    (num_tiles_x num_tiles_y num_levels : Z) : outcome Z :=
  match fuel with
  | O => OutOfFuel
  | S fuel' =>
      let w := num_tiles_x * tile_width in
      let h := num_tiles_y * tile_height in
      if (max_width <=? w) && (max_height <=? h) then Returns num_levels
      else count_levels fuel' tile_width tile_height max_width max_height
                        (num_tiles_x * 2) (num_tiles_y * 2) (num_levels + 1)
  end.

Definition compute_layout (fuel : nat) (max_size : option (Z * Z)) (array : option ndarray)
    (tile_size : option (Z * Z)) (int_div : bool)
    (num_level_zero_tiles : option (Z * Z)) (num_levels : option Z)
  : outcome ((Z * Z) * (Z * Z) * (Z * Z) * Z) :=
  obind (match array with
         | Some a =>
             let size := (snd (shape a), fst (shape a)) in
             obind (match max_size with
                    | None => Returns size
                    | Some ms => if decide (ms = size) then Returns ms
                                 else Raises ValueError
                    end) (fun ms =>
             obind (match tile_size with
                    | Some ts => Returns ts
                    | None =>
                        let chunk_width := snd <$> chunks a in
                        let chunk_height := fst <$> chunks a in
                        obind (Utils.compute_tile_size_default fuel (fst ms) chunk_width int_div)
                          (fun tw =>
                        obind (Utils.compute_tile_size_default fuel (snd ms) chunk_height int_div)
                          (fun th => Returns (tw, th)))
                    end) (fun ts => Returns (Some ms, Some ts)))
         | None => Returns (max_size, tile_size)
         end) (fun '(max_size, tile_size) =>
  match max_size with
  | None => Raises ValueError
  | Some (max_width, max_height) =>
      obind (match tile_size with
             | Some ts => Returns ts
             | None =>
                 obind (Utils.compute_tile_size_default fuel max_width None int_div) (fun tw =>
                 obind (Utils.compute_tile_size_default fuel max_height None int_div) (fun th =>
                 Returns (tw, th)))
             end) (fun '(tile_width, tile_height) =>
      obind (match num_level_zero_tiles with
             | Some n0 => Returns n0
             | None =>
                 obind (Utils.cardinal_div_round max_width max_height) (fun n0x =>
                 obind (Utils.cardinal_div_round max_height max_width) (fun n0y =>
                 Returns (n0x, n0y)))
             end) (fun num_level_zero_tiles =>
      obind (if Utils.truthy_opt num_levels then Returns (default 0 num_levels)
             else count_levels fuel tile_width tile_height max_width max_height
                               (fst num_level_zero_tiles) (snd num_level_zero_tiles) 1)
        (fun num_levels =>
      Returns ((max_width, max_height), (tile_width, tile_height),
               num_level_zero_tiles, num_levels))))
  end).

(** The tiles of level [j] above the first one cover the image. *)
Definition covers (tile_width tile_height max_width max_height n0x n0y j : Z) : Prop :=
  max_width <= n0x * 2 ^ j * tile_width /\ max_height <= n0y * 2 ^ j * tile_height.

End Image.

(** ** Proof steps *)

#[local] Set Warnings "-clear-no-such-hyp".

(** Reduce the field accesses of an updated cache object, and nothing
    else. *)
Ltac cache_simpl :=
  cbn [Cache._size Cache._item_dict Cache._item_list Cache.objects Cache._parent_cache
       Cache._store Cache._policy Cache._max_size Cache._capacity Cache._threshold
       Cache.set_size Cache.set_item_dict Cache.set_item_list Cache.set_objects
       Cache.set_parent Cache.detached Cache.touched Cache.attached
       fst snd].

Tactic Notation "cache_simpl" "in" hyp(H) :=
  cbn [Cache._size Cache._item_dict Cache._item_list Cache.objects Cache._parent_cache
       Cache._store Cache._policy Cache._max_size Cache._capacity Cache._threshold
       Cache.set_size Cache.set_item_dict Cache.set_item_list Cache.set_objects
       Cache.set_parent Cache.detached Cache.touched Cache.attached
       fst snd] in H.

(** * Properties *)

(** ** utils.py: tile sizes *)

Section TileSize.

Import Utils.

Lemma natural_series_2048 (extra : nat) :
  natural_series (4 + extra) 180 2048 0 = Returns (256, 3).
Proof. reflexivity. Qed.

Lemma natural_series_1000 (extra : nat) :
  natural_series (3 + extra) 180 1000 0 = Returns (250, 2).
Proof. reflexivity. Qed.

Lemma natural_series_fuel_mono (fuel fuel' : nat) (m ts n : Z) (r : Z * Z) :
  (fuel <= fuel')%nat ->
  natural_series fuel m ts n = Returns r ->
  natural_series fuel' m ts n = Returns r.
Proof.
  revert fuel' ts n. induction fuel as [|fuel IH]; intros fuel' ts n Hle H.
  - discriminate.
  - destruct fuel' as [|fuel']; [lia|].
    simpl in *. destruct (ts mod 2 =? 0); [|exact H].
    destruct (ts / 2 <? m); [exact H|].
    apply IH; [lia | exact H].
Qed.

(** C6, the figures of scenario S3 do not hold: with any fuel the first
    call does not return 512, and the second does not return 500. *)
Lemma compute_tile_size_S3_refuted :
  ~ (exists fuel : nat,
       compute_tile_size fuel 2048 180 512 2 None None false = Returns 512
       \/ compute_tile_size fuel 1000 180 512 2 None None true = Returns 500).
Proof.
  intros [fuel [H | H]].
  - unfold compute_tile_size in H.
    destruct (natural_series fuel 180 2048 0) as [r| |] eqn:E; try discriminate.
    assert (E' : natural_series (4 + fuel) 180 2048 0 = Returns r)
      by (eapply natural_series_fuel_mono; [|exact E]; lia).
    rewrite natural_series_2048 in E'. inversion E'; subst r.
    simpl in H. discriminate.
  - unfold compute_tile_size in H.
    destruct (natural_series fuel 180 1000 0) as [r| |] eqn:E; try discriminate.
    assert (E' : natural_series (3 + fuel) 180 1000 0 = Returns r)
      by (eapply natural_series_fuel_mono; [|exact E]; lia).
    rewrite natural_series_1000 in E'. inversion E'; subst r.
    simpl in H. discriminate.
Qed.

(** C6, as the code has it: the natural series goes on halving while the
    half is at least [tile_size_min], so 2048 is halved down to 256 and 1000
    down to 250, and both calls return from the natural-halving branch. *)
Theorem compute_tile_size_S3 (extra : nat) :
  compute_tile_size (4 + extra) 2048 180 512 2 None None false = Returns 256
  /\ via_natural_series (4 + extra) 2048 180 512 None = true
  /\ compute_tile_size (4 + extra) 1000 180 512 2 None None true = Returns 250
  /\ via_natural_series (4 + extra) 1000 180 512 None = true.
Proof. repeat split; reflexivity. Qed.

End TileSize.

(** ** image.py: pyramid layout *)

Section Layout.

Import Image.

Lemma count_levels_least (fuel : nat) (tw th mw mh : Z) :
  forall ntx nty n r,
    count_levels fuel tw th mw mh ntx nty n = Returns r ->
    n <= r
    /\ covers tw th mw mh ntx nty (r - n)
    /\ forall j, 0 <= j < r - n -> ~ covers tw th mw mh ntx nty j.
Proof.
  induction fuel as [|fuel IH]; intros ntx nty n r H; [discriminate|].
  simpl in H.
  destruct ((mw <=? ntx * tw) && (mh <=? nty * th)) eqn:E.
  - inversion H; subst r. rewrite Z.sub_diag.
    apply andb_true_iff in E as [E1 E2].
    apply Z.leb_le in E1. apply Z.leb_le in E2.
    split; [lia|]. split.
    + unfold covers. simpl. split; lia.
    + intros j Hj. lia.
  - apply IH in H as (Hle & Hc & Hmin).
    split; [lia|]. split.
    + unfold covers in *. replace (r - n) with (Z.succ (r - (n + 1))) by lia.
      rewrite Z.pow_succ_r by lia.
      replace (ntx * (2 * 2 ^ (r - (n + 1)))) with (ntx * 2 * 2 ^ (r - (n + 1))) by ring.
      replace (nty * (2 * 2 ^ (r - (n + 1)))) with (nty * 2 * 2 ^ (r - (n + 1))) by ring.
      exact Hc.
    + intros j Hj Hcov.
      destruct (Z.eq_dec j 0) as [->|Hne].
      * unfold covers in Hcov. simpl in Hcov.
        apply andb_false_iff in E as [E | E]; apply Z.leb_gt in E; lia.
      * apply (Hmin (j - 1)); [lia|].
        unfold covers in *. replace j with (Z.succ (j - 1)) in Hcov by lia.
        rewrite Z.pow_succ_r in Hcov by lia.
        replace (ntx * (2 * 2 ^ (j - 1))) with (ntx * 2 * 2 ^ (j - 1)) in Hcov by ring.
        replace (nty * (2 * 2 ^ (j - 1))) with (nty * 2 * 2 ^ (j - 1)) in Hcov by ring.
        exact Hcov.
Qed.

(** Whatever the arguments, a layout whose [num_levels] was not given has
    the level count of the loop, run on the sizes and tile counts it
    returns. *)
Lemma compute_layout_derived (fuel : nat) (max_size : option (Z * Z)) (array : option ndarray)
    (tile_size : option (Z * Z)) (int_div : bool) (num_level_zero_tiles : option (Z * Z))
    (num_levels : option Z) (mw mh tw th : Z) (n0 : Z * Z) (n : Z) :
  compute_layout fuel max_size array tile_size int_div num_level_zero_tiles num_levels
    = Returns ((mw, mh), (tw, th), n0, n) ->
  Utils.truthy_opt num_levels = false ->
  count_levels fuel tw th mw mh (fst n0) (snd n0) 1 = Returns n.
Proof.
  unfold compute_layout. intros H Ht. rewrite Ht in H.
  match type of H with
  | obind ?m _ = _ => destruct m as [[[[mw' mh']|] ts]| |]; cbn [obind] in H
  end; try discriminate.
  match type of H with
  | obind ?m _ = _ => destruct m as [[tw' th']| |]; cbn [obind] in H
  end; try discriminate.
  match type of H with
  | obind ?m _ = _ => destruct m as [n0'| |]; cbn [obind] in H
  end; try discriminate.
  destruct (count_levels fuel tw' th' mw' mh' (fst n0') (snd n0') 1) as [n'| |] eqn:E;
    cbn [obind] in H; try discriminate.
  inversion H; subst. exact E.
Qed.

(** C7, scenario S4 and the rule behind it: for 4096 x 2048 and tiles of
    512 the layout has (2, 1) level-zero tiles and 3 levels; whenever
    [num_levels] is derived, it is the least count at which the level-zero
    tile counts, doubled once per further level, cover the image in both
    directions. *)
Theorem compute_layout_S4 :
  (forall (extra : nat) (int_div : bool),
     compute_layout (3 + extra) (Some (4096, 2048)) None (Some (512, 512)) int_div None None
       = Returns ((4096, 2048), (512, 512), (2, 1), 3))
  /\ (forall (fuel : nat) (max_size : option (Z * Z)) (array : option ndarray)
             (tile_size : option (Z * Z)) (int_div : bool)
             (num_level_zero_tiles : option (Z * Z)) (num_levels : option Z)
             (mw mh tw th : Z) (n0 : Z * Z) (n : Z),
        compute_layout fuel max_size array tile_size int_div num_level_zero_tiles num_levels
          = Returns ((mw, mh), (tw, th), n0, n) ->
        Utils.truthy_opt num_levels = false ->
        1 <= n
        /\ covers tw th mw mh (fst n0) (snd n0) (n - 1)
        /\ forall m, 1 <= m < n -> ~ covers tw th mw mh (fst n0) (snd n0) (m - 1)).
Proof.
  split.
  - intros extra int_div. reflexivity.
  - intros fuel max_size array tile_size int_div nlzt num_levels mw mh tw th n0 n H Ht.
    apply compute_layout_derived in H; [|exact Ht].
    apply count_levels_least in H as (Hle & Hc & Hmin).
    split; [exact Hle|]. split; [exact Hc|].
    intros m Hm. apply Hmin. lia.
Qed.

Lemma compute_layout_S4_witness :
  compute_layout 3 (Some (4096, 2048)) None (Some (512, 512)) true None None
    = Returns ((4096, 2048), (512, 512), (2, 1), 3)
  /\ 1 <= 3
  /\ covers 512 512 4096 2048 2 1 (3 - 1)
  /\ forall m, 1 <= m < 3 -> ~ covers 512 512 4096 2048 2 1 (m - 1).
Proof.
  split; [reflexivity|].
  apply (proj2 compute_layout_S4 3%nat (Some (4096, 2048)) None (Some (512, 512)) true
           None None 4096 2048 512 512 (2, 1) 3); reflexivity.
Defined.

End Layout.

(** ** image.py: image ids and tile ids *)

Section ImageIds.

Import Image.

Lemma AbstractTiledImage_init_default_id (fuel : nat) (u : Uuid) (size : Z * Z)
    (ts nt : option (Z * Z)) (mode format : option string) (img : AbstractTiledImage) :
  AbstractTiledImage_init fuel u size ts nt mode format None = Returns img ->
  _id img = str_uuid4 u.
Proof.
  unfold AbstractTiledImage_init. intros H.
  repeat match type of H with
         | obind ?m _ = _ => destruct m; simpl in H; try discriminate
         end.
  inversion H. reflexivity.
Qed.

(** C9, what the code does instead: two images constructed without an
    [image_id] both get the printed function object [str(uuid.uuid4)] as
    their id, so the ids are equal and the tile ids of equal coordinates
    collide. *)
Theorem default_image_ids_collide (fuel : nat) (u : Uuid) (size1 size2 : Z * Z)
    (ts1 ts2 nt1 nt2 : option (Z * Z)) (mode1 mode2 format1 format2 : option string)
    (img1 img2 : AbstractTiledImage) :
  AbstractTiledImage_init fuel u size1 ts1 nt1 mode1 format1 None = Returns img1 ->
  AbstractTiledImage_init fuel u size2 ts2 nt2 mode2 format2 None = Returns img2 ->
  _id img1 = _id img2
  /\ forall tile_x tile_y, get_tile_id img1 tile_x tile_y = get_tile_id img2 tile_x tile_y.
Proof.
  intros H1 H2.
  apply AbstractTiledImage_init_default_id in H1.
  apply AbstractTiledImage_init_default_id in H2.
  assert (E : _id img1 = _id img2) by congruence.
  split; [exact E|].
  intros tile_x tile_y. unfold get_tile_id. rewrite E. reflexivity.
Qed.

Lemma default_image_ids_collide_witness :
  let u := mkUuid "<function uuid4 at 0x7f3c5a1e2bf8>" (fun _ => "u") in
  let img1 := mkAbstractTiledImage 1024 1024 256 256 4 4 (str_uuid4 u) None None in
  let img2 := mkAbstractTiledImage 512 256 256 256 2 1 (str_uuid4 u) None None in
  _id img1 = _id img2
  /\ forall tile_x tile_y, get_tile_id img1 tile_x tile_y = get_tile_id img2 tile_x tile_y.
Proof.
  intros u img1 img2.
  apply (default_image_ids_collide 0 u (1024, 1024) (512, 256)
           (Some (256, 256)) (Some (256, 256)) (Some (4, 4)) (Some (2, 1))
           None None None None img1 img2); reflexivity.
Defined.

End ImageIds.

(** ** image.py: tiles of the fast downsampling image *)

Section FastTiles.

Import Image.

Lemma slice_adjust_positive_step (start stop step n : Z) :
  0 < step -> exists r, slice_adjust start stop step n = Returns r.
Proof.
  intros H. unfold slice_adjust.
  destruct (step =? 0) eqn:E; [apply Z.eqb_eq in E; lia|].
  eexists. reflexivity.
Qed.

Lemma FastNdarrayDownsamplingImage_init_fields (fuel : nat) (u : Uuid) (array : ndarray)
    (ts : Z * Z) (z_index num_levels : Z) (cache : bool)
    (img : FastNdarrayDownsamplingImage) :
  FastNdarrayDownsamplingImage_init fuel u array ts z_index num_levels cache = Returns img ->
  0 < _zoom img
  /\ _array img = array
  /\ tile_size (base (fast_base img)) = ts
  /\ _width (base (fast_base img)) = snd (shape array) / _zoom img
  /\ _height (base (fast_base img)) = fst (shape array) / _zoom img
  /\ Utils.cardinal_div_round (_width (base (fast_base img))) (fst ts)
     = Returns (_num_tiles_x (base (fast_base img)))
  /\ Utils.cardinal_div_round (_height (base (fast_base img))) (snd ts)
     = Returns (_num_tiles_y (base (fast_base img))).
Proof.
  unfold FastNdarrayDownsamplingImage_init. intros H.
  destruct (num_levels - z_index - 1 <? 0) eqn:E; [discriminate|].
  apply Z.ltb_ge in E.
  destruct ts as [tw th].
  destruct (Utils.cardinal_div_round (snd (shape array) / _) tw) as [nx| |] eqn:Ex;
    simpl in H; try discriminate.
  destruct (Utils.cardinal_div_round (fst (shape array) / _) th) as [ny| |] eqn:Ey;
    simpl in H; try discriminate.
  inversion H; subst img; clear H. simpl.
  rewrite Z.shiftl_1_l.
  rewrite Z.shiftl_1_l in Ex, Ey.
  repeat split; auto.
  apply Z.pow_pos_nonneg; lia.
Qed.

Lemma compute_tile_zoomed_slice (img : FastNdarrayDownsamplingImage) (tile_x tile_y : Z)
    (rectangle : Z * Z * Z * Z) :
  compute_tile img tile_x tile_y rectangle =
  obind (zoomed_slice img rectangle) (fun tile =>
    if decide (tile_size (base (fast_base img)) = (snd (shape tile), fst (shape tile)))
    then Returns tile else Raises AssertionError).
Proof.
  unfold compute_tile, zoomed_slice.
  destruct rectangle as [[[x y] w] h]. reflexivity.
Qed.

Lemma zoomed_slice_returns (img : FastNdarrayDownsamplingImage) (rectangle : Z * Z * Z * Z) :
  0 < _zoom img -> exists s, zoomed_slice img rectangle = Returns s.
Proof.
  intros Hz. unfold zoomed_slice, strided_slice.
  destruct rectangle as [[[x y] w] h].
  destruct (slice_adjust_positive_step (y * _zoom img) (y * _zoom img + h * _zoom img)
              (_zoom img) (fst (shape (_array img))) Hz) as [[ys ylen] ->].
  destruct (slice_adjust_positive_step (x * _zoom img) (x * _zoom img + w * _zoom img)
              (_zoom img) (snd (shape (_array img))) Hz) as [[xs xlen] ->].
  simpl. eexists. reflexivity.
Qed.

(** A tile inside the grid of a level whose extent is a multiple of the
    tile edge is sliced at full length. *)
Lemma slice_adjust_full (n zoom t i : Z) :
  0 < zoom -> 0 < t -> 0 <= i ->
  (n / zoom) mod t = 0 ->
  i < (n / zoom + t - 1) / t ->
  slice_adjust (t * i * zoom) (t * i * zoom + t * zoom) zoom n
    = Returns (t * i * zoom, t).
Proof.
  intros Hz Ht Hi Hmod Hlt.
  set (wl := n / zoom) in *.
  assert (Hq : wl = t * (wl / t)) by (apply Z.div_exact; lia).
  assert (Hnt : (wl + t - 1) / t = wl / t).
  { rewrite Hq at 1.
    replace (t * (wl / t) + t - 1) with ((t - 1) + (wl / t) * t) by ring.
    rewrite Z.div_add by lia. rewrite Z.div_small by lia. lia. }
  rewrite Hnt in Hlt.
  assert (Hwn : wl * zoom <= n).
  { unfold wl. pose proof (Z.mul_div_le n zoom Hz). lia. }
  assert (Hstop : t * i * zoom + t * zoom <= n) by nia.
  assert (Hpos : 0 < t * zoom) by nia.
  assert (Hstart : 0 <= t * i * zoom) by nia.
  unfold slice_adjust.
  destruct (zoom =? 0) eqn:E0; [apply Z.eqb_eq in E0; lia|].
  destruct (zoom <? 0) eqn:E1; [apply Z.ltb_lt in E1; lia|].
  destruct (t * i * zoom <? 0) eqn:E2; [apply Z.ltb_lt in E2; lia|].
  destruct (n <=? t * i * zoom) eqn:E3; [apply Z.leb_le in E3; lia|].
  destruct (t * i * zoom + t * zoom <? 0) eqn:E4; [apply Z.ltb_lt in E4; lia|].
  assert (Hlen : forall stop', stop' = t * i * zoom + t * zoom ->
            (if t * i * zoom <? stop' then (stop' - t * i * zoom - 1) / zoom + 1 else 0) = t).
  { intros stop' ->.
    destruct (t * i * zoom <? t * i * zoom + t * zoom) eqn:E5;
      [|apply Z.ltb_ge in E5; lia].
    replace (t * i * zoom + t * zoom - t * i * zoom - 1) with ((zoom - 1) + (t - 1) * zoom)
      by ring.
    rewrite Z.div_add by lia. rewrite Z.div_small by lia. lia. }
  destruct (n <=? t * i * zoom + t * zoom) eqn:E5.
  - apply Z.leb_le in E5. rewrite (Hlen n) by lia. reflexivity.
  - rewrite Hlen by reflexivity. reflexivity.
Qed.

Lemma compute_tile_in_grid (fuel : nat) (u : Uuid) (array : ndarray) (ts : Z * Z)
    (z_index num_levels : Z) (cache : bool) (img : FastNdarrayDownsamplingImage)
    (tile_x tile_y : Z) :
  FastNdarrayDownsamplingImage_init fuel u array ts z_index num_levels cache = Returns img ->
  0 < fst ts -> 0 < snd ts ->
  0 <= tile_x < _num_tiles_x (base (fast_base img)) ->
  0 <= tile_y < _num_tiles_y (base (fast_base img)) ->
  _width (base (fast_base img)) mod fst ts = 0 ->
  _height (base (fast_base img)) mod snd ts = 0 ->
  exists tile,
    compute_tile img tile_x tile_y (tile_rectangle (base (fast_base img)) tile_x tile_y)
      = Returns tile.
Proof.
  intros Hinit Htw Hth Hx Hy Hmw Hmh.
  apply FastNdarrayDownsamplingImage_init_fields in Hinit
    as (Hz & Harr & Hts & Hw & Hh & Hnx & Hny).
  destruct ts as [tw th]. cbn [fst snd] in *.
  unfold Utils.cardinal_div_round in Hnx, Hny.
  destruct (tw =? 0) eqn:Etw; [apply Z.eqb_eq in Etw; lia|].
  destruct (th =? 0) eqn:Eth; [apply Z.eqb_eq in Eth; lia|].
  inversion Hnx as [Hnx']. inversion Hny as [Hny']. clear Hnx Hny.
  rewrite compute_tile_zoomed_slice.
  unfold tile_rectangle, zoomed_slice, strided_slice. rewrite Hts.
  rewrite Hw in Hmw, Hnx'. rewrite Hh in Hmh, Hny'.
  rewrite (slice_adjust_full (fst (shape (_array img))) (_zoom img) th tile_y);
    try rewrite Harr; try lia.
  simpl.
  rewrite <- Harr.
  rewrite (slice_adjust_full (snd (shape (_array img))) (_zoom img) tw tile_x);
    try rewrite Harr; try lia.
  simpl. rewrite decide_True by reflexivity. eexists. reflexivity.
Qed.

(** C10: a tile computed by the fast downsampling image has exactly the
    tile size, or the call raises [AssertionError]; it raises whenever the
    zoomed slice is smaller than the tile in either direction, and inside
    the tile grid that only happens when the level width or height is not a
    multiple of the tile edge. *)
Theorem fast_compute_tile_exact (fuel : nat) (u : Uuid) (array : ndarray) (ts : Z * Z)
    (z_index num_levels : Z) (cache : bool) (img : FastNdarrayDownsamplingImage)
    (tile_x tile_y : Z) (rectangle : Z * Z * Z * Z) :
  FastNdarrayDownsamplingImage_init fuel u array ts z_index num_levels cache = Returns img ->
  ((exists tile, compute_tile img tile_x tile_y rectangle = Returns tile
                 /\ (snd (shape tile), fst (shape tile)) = ts)
   \/ compute_tile img tile_x tile_y rectangle = Raises AssertionError)
  /\ (exists s, zoomed_slice img rectangle = Returns s
                /\ (snd (shape s) < fst ts \/ fst (shape s) < snd ts ->
                    compute_tile img tile_x tile_y rectangle = Raises AssertionError))
  /\ (0 < fst ts -> 0 < snd ts ->
      0 <= tile_x < _num_tiles_x (base (fast_base img)) ->
      0 <= tile_y < _num_tiles_y (base (fast_base img)) ->
      compute_tile img tile_x tile_y (tile_rectangle (base (fast_base img)) tile_x tile_y)
        = Raises AssertionError ->
      _width (base (fast_base img)) mod fst ts <> 0
      \/ _height (base (fast_base img)) mod snd ts <> 0).
Proof.
  intros Hinit.
  pose proof (FastNdarrayDownsamplingImage_init_fields _ _ _ _ _ _ _ _ Hinit)
    as (Hz & Harr & Hts & _).
  destruct (zoomed_slice_returns img rectangle Hz) as [s Hs].
  split; [|split]; [rewrite compute_tile_zoomed_slice, Hs; simpl; rewrite Hts ..|].
  - destruct (decide (ts = (snd (shape s), fst (shape s)))) as [E|E].
    + left. exists s. split; [reflexivity | symmetry; exact E].
    + right. reflexivity.
  - exists s. split; [reflexivity|].
    intros Hsmall.
    destruct (decide (ts = (snd (shape s), fst (shape s)))) as [E|E]; [|reflexivity].
    rewrite E in Hsmall. cbn [fst snd] in Hsmall. lia.
  - intros Htw Hth Hx Hy Hraise.
    destruct (Z.eq_dec (_width (base (fast_base img)) mod fst ts) 0) as [Ew|Ew]; [|left; exact Ew].
    destruct (Z.eq_dec (_height (base (fast_base img)) mod snd ts) 0) as [Eh|Eh]; [|right; exact Eh].
    destruct (compute_tile_in_grid _ _ _ _ _ _ _ _ tile_x tile_y Hinit Htw Hth Hx Hy Ew Eh)
      as [tile Ht].
    rewrite Ht in Hraise. discriminate.
Qed.

Lemma fast_compute_tile_exact_witness :
  let u := mkUuid "<function uuid4 at 0x7f3c5a1e2bf8>"
                  (fun _ => "0b8f5c1e-7d2a-4e39-9c41-6a5d3f2e1b70") in
  let array := mkNdarray (7, 8) "int64" None (fun r c => r * 8 + c) in
  exists img,
    FastNdarrayDownsamplingImage_init 0 u array (4, 4) 0 1 true = Returns img
    /\ ((exists tile, compute_tile img 1 1 (4, 4, 4, 4) = Returns tile
                      /\ (snd (shape tile), fst (shape tile)) = (4, 4))
        \/ compute_tile img 1 1 (4, 4, 4, 4) = Raises AssertionError)
    /\ (exists s, zoomed_slice img (4, 4, 4, 4) = Returns s
                  /\ (snd (shape s) < fst (4, 4) \/ fst (shape s) < snd (4, 4) ->
                      compute_tile img 1 1 (4, 4, 4, 4) = Raises AssertionError))
    /\ (0 < fst (4, 4) -> 0 < snd (4, 4) ->
        0 <= 1 < _num_tiles_x (base (fast_base img)) ->
        0 <= 1 < _num_tiles_y (base (fast_base img)) ->
        compute_tile img 1 1 (tile_rectangle (base (fast_base img)) 1 1)
          = Raises AssertionError ->
        _width (base (fast_base img)) mod fst (4, 4) <> 0
        \/ _height (base (fast_base img)) mod snd (4, 4) <> 0).
Proof.
  intros u array. eexists. split; [reflexivity|].
  apply (fast_compute_tile_exact 0 u array (4, 4) 0 1 true _ 1 1 (4, 4, 4, 4)).
  reflexivity.
Defined.

End FastTiles.

(** ** cache.py: lists, sums and the sort *)

Section CacheLists.

Import Cache.

Lemma Qsum_cons (x : Q) (l : list Q) : Qsum (x :: l) = (x + Qsum l)%Q.
Proof. reflexivity. Qed.

Lemma Qsum_app (l1 l2 : list Q) : (Qsum (l1 ++ l2) == Qsum l1 + Qsum l2)%Q.
Proof.
  induction l1 as [|x l1 IH].
  - change (Qsum ([] ++ l2)) with (Qsum l2). change (Qsum []) with 0%Q. lra.
  - change (Qsum ((x :: l1) ++ l2)) with (x + Qsum (l1 ++ l2))%Q.
    rewrite Qsum_cons, IH. lra.
Qed.

Lemma Qsum_Permutation (l1 l2 : list Q) : l1 ≡ₚ l2 -> (Qsum l1 == Qsum l2)%Q.
Proof.
  induction 1 as [|x l1 l2 _ IH|x y l|l1 l2 l3 _ IH1 _ IH2].
  - reflexivity.
  - rewrite !Qsum_cons, IH. reflexivity.
  - rewrite !Qsum_cons. lra.
  - rewrite IH1. exact IH2.
Qed.



Lemma list_remove_first_Permutation (x : nat) (l : list nat) :
  x ∈ l -> l ≡ₚ x :: list_remove_first x l.
Proof.
  induction l as [|y l IH]; intros Hin.
  - inversion Hin.
  - simpl. destruct (decide (x = y)) as [->|Hne]; [reflexivity|].
    apply elem_of_cons in Hin as [?|Hin]; [congruence|].
    rewrite (IH Hin) at 1. apply Permutation_swap.
Qed.

Lemma list_remove_first_NoDup (x : nat) (l : list nat) :
  NoDup l -> NoDup (list_remove_first x l).
Proof.
  intros Hnd. destruct (decide (x ∈ l)) as [Hin|Hnin].
  - rewrite (list_remove_first_Permutation x l Hin) in Hnd.
    apply NoDup_cons in Hnd. tauto.
  - assert (E : list_remove_first x l = l); [|rewrite E; exact Hnd].
    clear Hnd. induction l as [|y l IH]; [reflexivity|].
    simpl. apply not_elem_of_cons in Hnin as [Hne Hnin].
    destruct (decide (x = y)); [congruence|]. rewrite (IH Hnin). reflexivity.
Qed.

Lemma elem_of_list_remove_first (x y : nat) (l : list nat) :
  NoDup l -> x ∈ l -> (y ∈ list_remove_first x l <-> y ∈ l /\ y <> x).
Proof.
  intros Hnd Hin.
  pose proof (list_remove_first_Permutation x l Hin) as Hp.
  rewrite Hp in Hnd. apply NoDup_cons in Hnd as [Hx _].
  rewrite Hp at 2. rewrite elem_of_cons. split.
  - intros Hy. split; [right; exact Hy|]. intros ->. contradiction.
  - intros [[->|Hy] Hne]; [contradiction | exact Hy].
Qed.

Lemma list_remove_first_submseteq (x : nat) (l : list nat) :
  list_remove_first x l ⊆+ l.
Proof.
  induction l as [|y l IH]; simpl; [reflexivity|].
  destruct (decide (x = y)).
  - apply submseteq_cons. reflexivity.
  - apply submseteq_skip. exact IH.
Qed.

Lemma insert_by_Permutation (f : nat -> Q) (x : nat) (l : list nat) :
  insert_by f x l ≡ₚ x :: l.
Proof.
  induction l as [|y l IH]; simpl; [reflexivity|].
  destruct (Qle_bool (f x) (f y)); [reflexivity|].
  rewrite IH. apply Permutation_swap.
Qed.

Lemma sort_by_Permutation (f : nat -> Q) (l : list nat) : sort_by f l ≡ₚ l.
Proof.
  induction l as [|x l IH]; simpl; [reflexivity|].
  rewrite insert_by_Permutation, IH. reflexivity.
Qed.

(** Once the projected size fits, the sweep selects nothing more. *)
Lemma select_victims_fits (objs : list Item) (extra max size : Q) (items : list nat) :
  (size + extra <= max)%Q -> select_victims objs extra max size items = [].
Proof.
  intros Hfit. induction items as [|l rest IH]; simpl; [reflexivity|].
  destruct (Qlt_le_dec max (size + extra)) as [Hlt|_]; [exfalso; lra | exact IH].
Qed.

(** The victims are the items of a prefix of the sorted list; either that
    prefix is the whole list, or what is left fits. *)
Lemma select_victims_prefix (objs : list Item) (extra max : Q) (items : list nat) :
  forall size,
  exists pre suf,
    items = pre ++ suf
    /\ select_victims objs extra max size items = (fun l => key (objs !!! l)) <$> pre
    /\ (suf = []
        \/ (size - Qsum ((fun l => stored_size (objs !!! l)) <$> pre) + extra <= max)%Q).
Proof.
  induction items as [|l rest IH]; intros size.
  - exists [], []. simpl. auto.
  - simpl. destruct (Qlt_le_dec max (size + extra)) as [Hlt|Hle].
    + destruct (IH (size - stored_size (objs !!! l))%Q) as (pre & suf & E & Hsel & Hb).
      exists (l :: pre), suf. split; [simpl; congruence|]. split.
      * simpl. rewrite Hsel. reflexivity.
      * destruct Hb as [Hb|Hb]; [left; exact Hb|]. right.
        rewrite fmap_cons, Qsum_cons. lra.
    + exists [], (l :: rest). split; [reflexivity|]. split.
      * rewrite select_victims_fits by exact Hle. reflexivity.
      * right. change (Qsum _) with 0%Q. lra.
Qed.

End CacheLists.

(** ** cache.py: one cache object *)

Section CacheTier.

Import Cache.

Lemma chain_ok_unfold (c : Cache) :
  chain_ok c <->
  tier_ok c /\ match _parent_cache c with
               | None => True
               | Some p => chain_ok p /\ resident c ## resident p
               end.
Proof. destruct c. reflexivity. Qed.

Lemma depth_unfold (c : Cache) :
  depth c = match _parent_cache c with
            | None => O
            | Some p => S (depth p)
            end.
Proof. destruct c. reflexivity. Qed.

Lemma chain_ok_tier (c : Cache) : chain_ok c -> tier_ok c.
Proof. rewrite chain_ok_unfold. tauto. Qed.

Lemma chain_ok_chain_ok_but (k : pyval) (c : Cache) : chain_ok c -> chain_ok_but k c.
Proof.
  rewrite chain_ok_unfold. unfold chain_ok_but. intros [Ht Hp]. split; [exact Ht|].
  destruct (_parent_cache c); [|exact I].
  destruct Hp as [Hp Hd]. split; [exact Hp | set_solver].
Qed.

Lemma static_refl (c : Cache) : static c c.
Proof. unfold static. auto. Qed.

Lemma static_trans (c1 c2 c3 : Cache) : static c1 c2 -> static c2 c3 -> static c1 c3.
Proof.
  unfold static. intros (A1 & A2 & A3 & A4) (B1 & B2 & B3 & B4).
  repeat split; congruence.
Qed.

Lemma same_kvs_refl (item : Item) : same_kvs item item.
Proof. unfold same_kvs. auto. Qed.

Lemma same_kvs_trans (i1 i2 i3 : Item) : same_kvs i1 i2 -> same_kvs i2 i3 -> same_kvs i1 i3.
Proof.
  unfold same_kvs. intros (A1 & A2 & A3) (B1 & B2 & B3).
  repeat split; congruence.
Qed.

Lemma same_kvs_touch (t : Q) (item : Item) : same_kvs (touch t item) item.
Proof. unfold same_kvs. auto. Qed.

Lemma shrink_refl (c : Cache) : shrink c c.
Proof.
  unfold shrink. split; [apply static_refl|]. split; [reflexivity|].
  split; [reflexivity|]. split; [intros; apply same_kvs_refl | reflexivity].
Qed.

Lemma shrink_trans (c1 c2 c3 : Cache) : shrink c1 c2 -> shrink c2 c3 -> shrink c1 c3.
Proof.
  intros (Hs1 & Hl1 & Hsub1 & Hk1 & Ho1) (Hs2 & Hl2 & Hsub2 & Hk2 & Ho2).
  split; [eapply static_trans; eauto|]. split; [congruence|].
  split; [etrans; eauto|]. split.
  - intros l Hl. eapply same_kvs_trans; [apply Hk2; exact Hl|].
    apply Hk1. eapply elem_of_submseteq; eauto.
  - intros l Hl. rewrite Ho2, Ho1; [reflexivity | exact Hl |].
    intros Hin. apply Hl. eapply elem_of_submseteq; eauto.
Qed.

(** The sum of the stored sizes only depends on the stored sizes. *)
Lemma stored_fmap_ext (c c' : Cache) (l : list nat) :
  (forall x, x ∈ l -> same_kvs (objects c' !!! x) (objects c !!! x)) ->
  stored c' <$> l = stored c <$> l.
Proof.
  intros H. apply list_fmap_ext. intros i x Hx.
  unfold stored. apply H. eapply list_elem_of_lookup_2; eauto.
Qed.

(** A state with the same dictionary and list, whose listed items agree on
    keys and stored sizes, is consistent too. *)
Lemma tier_ok_same (c c' : Cache) :
  tier_ok c ->
  _item_dict c' = _item_dict c -> _item_list c' = _item_list c ->
  (_size c' == _size c)%Q ->
  (length (objects c) <= length (objects c'))%nat ->
  (forall l, l ∈ _item_list c -> same_kvs (objects c' !!! l) (objects c !!! l)) ->
  tier_ok c'.
Proof.
  intros (Hnd & Hdict & Hrange & Hsize) Ed El Es Hlen Hsame.
  unfold tier_ok. rewrite Ed, El. split; [exact Hnd|]. split; [|split].
  - intros k l. rewrite Hdict. split; intros [Hin Hk]; (split; [exact Hin|]).
    + rewrite <- Hk. apply Hsame. exact Hin.
    + rewrite <- Hk. symmetry. apply Hsame. exact Hin.
  - intros l Hl. apply Hrange in Hl. lia.
  - rewrite Es, Hsize. rewrite (stored_fmap_ext c c'); [reflexivity | exact Hsame].
Qed.

(** Sorting the list keeps the cache consistent. *)
Lemma tier_ok_permute (c : Cache) (l' : list nat) :
  tier_ok c -> l' ≡ₚ _item_list c -> tier_ok (set_item_list c l').
Proof.
  intros (Hnd & Hdict & Hrange & Hsize) Hp.
  unfold tier_ok. cache_simpl. split; [rewrite Hp; exact Hnd|]. split; [|split].
  - intros k l. rewrite Hdict, Hp. reflexivity.
  - intros l. rewrite Hp. apply Hrange.
  - rewrite Hsize. apply Qsum_Permutation.
    change (stored (set_item_list c l')) with (stored c).
    apply fmap_Permutation. symmetry. exact Hp.
Qed.

Lemma tier_ok_detached (c : Cache) (l : nat) :
  tier_ok c -> l ∈ _item_list c -> tier_ok (detached c l).
Proof.
  intros (Hnd & Hdict & Hrange & Hsize) Hl.
  assert (Hkeys : forall l', l' ∈ _item_list c -> l' <> l ->
                    key (objects c !!! l') <> key (objects c !!! l)).
  { intros l' Hl' Hne E. apply Hne.
    assert (H1 : _item_dict c !! key (objects c !!! l) = Some l) by (apply Hdict; auto).
    assert (H2 : _item_dict c !! key (objects c !!! l) = Some l') by (apply Hdict; auto).
    congruence. }
  assert (Hother : forall l', l' <> l ->
                     <[l := Item_init]> (objects c) !!! l' = objects c !!! l').
  { intros l' Hne. apply list_lookup_total_insert_ne. congruence. }
  unfold tier_ok. cache_simpl.
  split; [apply list_remove_first_NoDup; exact Hnd|]. split; [|split].
  - intros k l'. rewrite elem_of_list_remove_first by assumption.
    split.
    + intros Hd. apply lookup_delete_Some in Hd as [Hne Hd].
      apply Hdict in Hd as [Hin Hk].
      assert (l' <> l) by (intros ->; congruence).
      rewrite Hother by assumption. auto.
    + intros [[Hin Hne] Hk]. rewrite Hother in Hk by assumption.
      apply lookup_delete_Some. split.
      * rewrite <- Hk. intros E. symmetry in E. revert E. apply Hkeys; assumption.
      * apply Hdict. auto.
  - intros l'. rewrite elem_of_list_remove_first by assumption.
    rewrite length_insert. intros [Hin _]. apply Hrange. exact Hin.
  - rewrite Hsize.
    rewrite (Qsum_Permutation _ _
               (fmap_Permutation (stored c) _ _ (list_remove_first_Permutation l _ Hl))).
    rewrite fmap_cons, Qsum_cons.
    assert (E : stored (detached c l) <$> list_remove_first l (_item_list c)
                = stored c <$> list_remove_first l (_item_list c)).
    { apply list_fmap_ext. intros i x Hx.
      apply list_elem_of_lookup_2 in Hx.
      apply elem_of_list_remove_first in Hx as [_ Hne]; [|assumption..].
      unfold stored. cache_simpl. rewrite Hother by assumption. reflexivity. }
    rewrite E. unfold stored at 1. lra.
Qed.

End CacheTier.

(** ** cache.py: running the methods *)

Section CacheRun.

Import Cache.

Lemma bind_run {A B : Type} (m : M A) (k : A -> M B) (s s' : World * Cache) (a : A) :
  m s = (s', Returns a) -> bind m k s = k a s'.
Proof. intros H. unfold bind. rewrite H. reflexivity. Qed.

Lemma bind_raises {A B : Type} (m : M A) (k : A -> M B) (s s' : World * Cache) (e : exn) :
  m s = (s', Raises e) -> bind m k s = (s', Raises e).
Proof. intros H. unfold bind. rewrite H. reflexivity. Qed.

Lemma Item_access_run (l : nat) (w : World) (c : Cache) :
  Item_access l (w, c) = ((tick w, touched c l (now w)), Returns tt).
Proof. reflexivity. Qed.

Lemma Item_restore_run (l : nat) (st : CacheStore) (k : pyval) (w : World) (c : Cache) :
  (l < length (objects c))%nat ->
  Item_restore l st k (w, c)
  = ((tick w, touched c l (now w)),
     Returns (restore_value st k (stored_value (objects c !!! l)))).
Proof.
  intros Hl. unfold Item_restore. rewrite (bind_run _ _ _ _ _ (Item_access_run l w c)).
  unfold bind, read_item, ret, touched. cache_simpl.
  rewrite list_lookup_total_insert_eq by exact Hl. reflexivity.
Qed.

Lemma Item_store_run (l : nat) (st : CacheStore) (k v : pyval) (w : World) (c : Cache) :
  (l < length (objects c))%nat ->
  Item_store l st k v (w, c)
  = ((tick w,
      set_objects c (<[l := mkItem k (fst (store_value st k v)) (snd (store_value st k v))
                                   (creation_time (objects c !!! l)) (now w) 1]>
                       (objects c))),
     Returns tt).
Proof.
  intros Hl. unfold Item_store, Item_access, bind, read_item, write_item, modify_self,
    time_clock, get_T0. cache_simpl.
  repeat (rewrite list_lookup_total_insert_eq by (rewrite ?length_insert; exact Hl)).
  cbn [key stored_value stored_size creation_time access_time access_count].
  repeat (rewrite list_lookup_total_insert_eq by (rewrite ?length_insert; exact Hl)).
  destruct (store_value st k v) as [sv ssz]. unfold modify_self. cache_simpl.
  rewrite !list_insert_insert_eq. reflexivity.
Qed.

Lemma Item_discard_run (l : nat) (st : CacheStore) (k : pyval) (w : World) (c : Cache) :
  Item_discard l st k (w, c)
  = ((w, set_objects c (<[l := Item_init]> (objects c))), Returns tt).
Proof. reflexivity. Qed.

Lemma _add_item_run (l : nat) (w : World) (c : Cache) :
  _add_item l (w, c)
  = ((w, set_item_list (set_item_dict c (<[key (objects c !!! l) := l]> (_item_dict c)))
                       (_item_list c ++ [l])),
     Returns tt).
Proof. reflexivity. Qed.

Lemma _remove_item_run (l : nat) (w : World) (c : Cache) :
  is_Some (_item_dict c !! key (objects c !!! l)) -> l ∈ _item_list c ->
  _remove_item l (w, c)
  = ((w, set_item_list (set_item_dict c (delete (key (objects c !!! l)) (_item_dict c)))
                       (list_remove_first l (_item_list c))),
     Returns tt).
Proof.
  intros [l0 Hd] Hl. unfold _remove_item, bind, read_item, get_self. cache_simpl.
  rewrite Hd. unfold modify_self. cache_simpl.
  rewrite decide_True by exact Hl. reflexivity.
Qed.

(** The three steps that take an item out, with what follows them. *)
Lemma detach_run {B : Type} (st : CacheStore) (k : pyval) (K : M B)
    (l : nat) (w : World) (c : Cache) :
  is_Some (_item_dict c !! key (objects c !!! l)) -> l ∈ _item_list c ->
  (_remove_item l ;;;
   let* item := read_item l in
   modify_self (fun c => set_size c (_size c - stored_size item)%Q) ;;;
   Item_discard l st k ;;; K) (w, c)
  = K (w, detached c l).
Proof.
  intros Hd Hl. rewrite (bind_run _ _ _ _ _ (_remove_item_run l w c Hd Hl)).
  reflexivity.
Qed.

Lemma detach_run_last (st : CacheStore) (k : pyval) (l : nat) (w : World) (c : Cache) :
  is_Some (_item_dict c !! key (objects c !!! l)) -> l ∈ _item_list c ->
  (_remove_item l ;;;
   let* item := read_item l in
   modify_self (fun c => set_size c (_size c - stored_size item)%Q) ;;;
   Item_discard l st k) (w, c)
  = ((w, detached c l), Returns tt).
Proof.
  intros Hd Hl. rewrite (bind_run _ _ _ _ _ (_remove_item_run l w c Hd Hl)).
  reflexivity.
Qed.

(** A hit in this cache: the item is accessed and its value restored. *)
Lemma get_value_body_hit (pm : methods) (k : pyval) (l : nat) (w : World) (c : Cache) :
  _item_dict c !! k = Some l -> (l < length (objects c))%nat ->
  get_value_body pm k (w, c)
  = ((tick w, touched c l (now w)),
     Returns (restore_value (_store c) k (stored_value (objects c !!! l)))).
Proof.
  intros Hd Hl. unfold get_value_body, bind, get_self. cache_simpl.
  rewrite Hd. apply Item_restore_run. exact Hl.
Qed.

End CacheRun.

(** ** cache.py: what the methods do to a consistent cache *)

Section CacheFrames.

Import Cache.

Lemma depth_set_parent (c p : Cache) : depth (set_parent c p) = S (depth p).
Proof. reflexivity. Qed.

Lemma tier_ok_set_parent (c p : Cache) : tier_ok (set_parent c p) <-> tier_ok c.
Proof. reflexivity. Qed.

Lemma resident_set_parent (c p : Cache) : resident (set_parent c p) = resident c.
Proof. reflexivity. Qed.

Lemma has_parent_Some (c p : Cache) : _parent_cache c = Some p -> has_parent c = true.
Proof. unfold has_parent. intros ->. reflexivity. Qed.

Lemma has_parent_None (c : Cache) : _parent_cache c = None -> has_parent c = false.
Proof. unfold has_parent. intros ->. reflexivity. Qed.

Lemma on_parent_run {A : Type} (m : M A) (w w' : World) (c p p' : Cache) (r : outcome A) :
  _parent_cache c = Some p -> m (w, p) = ((w', p'), r) ->
  on_parent m (w, c) = ((w', set_parent c p'), r).
Proof.
  intros Hp Hm. unfold on_parent. cache_simpl. rewrite Hp, Hm. reflexivity.
Qed.

Lemma shrink_set_parent (c p p' : Cache) :
  _parent_cache c = Some p -> depth p' = depth p -> shrink c (set_parent c p').
Proof.
  intros Hp Hd. unfold shrink, static. cache_simpl.
  rewrite depth_set_parent, (depth_unfold c), Hp, Hd.
  split_and!; try reflexivity. intros l _. apply same_kvs_refl.
Qed.

Lemma shrink_touched (c : Cache) (l : nat) (t : Q) :
  l ∈ _item_list c -> shrink c (touched c l t).
Proof.
  intros Hl. unfold shrink, static. cache_simpl.
  rewrite length_insert.
  assert (Hd : depth (touched c l t) = depth c) by (destruct c; reflexivity).
  split_and!; try reflexivity; try exact Hd.
  - intros l' _. destruct (decide (l' = l)) as [->|Hne].
    + destruct (decide (l < length (objects c))%nat) as [Hlt|Hge].
      * rewrite list_lookup_total_insert_eq by exact Hlt. apply same_kvs_touch.
      * rewrite list_insert_ge by lia. apply same_kvs_refl.
    + rewrite list_lookup_total_insert_ne by congruence. apply same_kvs_refl.
  - intros l' Hl'. rewrite list_lookup_total_insert_ne; [reflexivity|].
    intros ->. contradiction.
Qed.

Lemma tier_ok_touched (c : Cache) (l : nat) (t : Q) :
  tier_ok c -> l ∈ _item_list c -> tier_ok (touched c l t).
Proof.
  intros Hok Hl. destruct (shrink_touched c l t Hl) as (_ & Hlen & _ & Hsame & _).
  apply (tier_ok_same c); try reflexivity; try assumption.
  rewrite Hlen. reflexivity.
Qed.

Lemma shrink_detached (c : Cache) (l : nat) :
  NoDup (_item_list c) -> l ∈ _item_list c -> shrink c (detached c l).
Proof.
  intros Hnd Hl. unfold shrink, static. cache_simpl.
  rewrite length_insert.
  assert (Hd : depth (detached c l) = depth c) by (destruct c; reflexivity).
  split_and!; try reflexivity; try exact Hd.
  - apply list_remove_first_submseteq.
  - intros l' Hl'.
    apply elem_of_list_remove_first in Hl' as [_ Hne]; [|assumption..].
    rewrite list_lookup_total_insert_ne by congruence. apply same_kvs_refl.
  - intros l' Hl'. rewrite list_lookup_total_insert_ne; [reflexivity|].
    intros ->. contradiction.
Qed.

Lemma resident_detached (c : Cache) (k : pyval) (l : nat) :
  key (objects c !!! l) = k -> resident (detached c l) = resident c ∖ {[k]}.
Proof.
  intros Hk. unfold resident. cache_simpl. rewrite Hk. apply dom_delete_L.
Qed.

(** Under [shrink], between consistent states, no key becomes resident. *)
Lemma shrink_resident (c c' : Cache) :
  tier_ok c -> tier_ok c' -> shrink c c' -> resident c' ⊆ resident c.
Proof.
  intros (_ & Hd & _) (_ & Hd' & _) (_ & _ & Hsub & Hsame & _).
  intros k Hk. unfold resident in *.
  apply elem_of_dom in Hk as [l Hl]. apply elem_of_dom. exists l.
  apply Hd' in Hl as [Hin Hkey]. apply Hd. split.
  - eapply elem_of_submseteq; eauto.
  - rewrite <- Hkey. symmetry. apply Hsame. exact Hin.
Qed.

Lemma tier_ok_attached (c : Cache) (l : nat) :
  tier_ok c -> l ∉ _item_list c -> (l < length (objects c))%nat ->
  _item_dict c !! key (objects c !!! l) = None ->
  tier_ok (attached c l).
Proof.
  intros (Hnd & Hdict & Hrange & Hsize) Hl Hlt Hnone.
  unfold tier_ok. cache_simpl. split_and!.
  - apply NoDup_app. split; [exact Hnd|]. split; [|apply NoDup_singleton].
    intros x Hx Hx'. apply list_elem_of_singleton in Hx'. subst x. contradiction.
  - intros k l'. rewrite elem_of_app, list_elem_of_singleton. split.
    + intros Hk. apply lookup_insert_Some in Hk as [[<- <-]|[Hne Hk]].
      * auto.
      * apply Hdict in Hk as [Hin Hkey]. auto.
    + intros [[Hin| ->] Hkey].
      * apply lookup_insert_Some. right. split.
        -- intros E. rewrite E in Hnone.
           assert (Hsome : _item_dict c !! k = Some l') by (apply Hdict; auto).
           congruence.
        -- apply Hdict. auto.
      * subst k. apply lookup_insert_Some. left. auto.
  - intros l'. rewrite elem_of_app, list_elem_of_singleton.
    intros [Hin| ->]; [apply Hrange; exact Hin | exact Hlt].
  - rewrite fmap_app, Qsum_app. change (stored (attached c l)) with (stored c).
    rewrite Hsize. unfold stored at 3. cbn [fmap list_fmap].
    rewrite Qsum_cons. change (Qsum []) with 0%Q. lra.
Qed.

Lemma resident_attached (c : Cache) (l : nat) :
  resident (attached c l) = {[key (objects c !!! l)]} ∪ resident c.
Proof. unfold resident. cache_simpl. apply dom_insert_L. Qed.

(** A new item object does not disturb the listed ones. *)
Lemma tier_ok_new_item (c : Cache) :
  tier_ok c -> tier_ok (set_objects c (objects c ++ [Item_init])).
Proof.
  intros Ht. apply (tier_ok_same c); try reflexivity; try exact Ht.
  - cache_simpl. rewrite length_app. lia.
  - intros l Hl. cache_simpl. destruct Ht as (_ & _ & Hr & _).
    rewrite lookup_total_app_l by (apply Hr; exact Hl). apply same_kvs_refl.
Qed.

(** Writing to an item object that is not listed does not disturb the
    listed ones. *)
Lemma tier_ok_write_unlisted (c : Cache) (l : nat) (item : Item) :
  tier_ok c -> l ∉ _item_list c -> tier_ok (set_objects c (<[l := item]> (objects c))).
Proof.
  intros Ht Hl. apply (tier_ok_same c); try reflexivity; try exact Ht.
  - cache_simpl. rewrite length_insert. lia.
  - intros l' Hl'. cache_simpl.
    rewrite list_lookup_total_insert_ne by (intros ->; contradiction).
    apply same_kvs_refl.
Qed.

End CacheFrames.

(** ** cache.py: the method bodies, given the methods of the parent *)

Section CacheBodies.

Import Cache.

Lemma bind_get_self {B : Type} (k : Cache -> M B) (s : World * Cache) :
  bind get_self k s = k (snd s) s.
Proof. reflexivity. Qed.


Lemma bind_read_item {B : Type} (l : nat) (k : Item -> M B) (s : World * Cache) :
  bind (read_item l) k s = k (objects (snd s) !!! l) s.
Proof. reflexivity. Qed.

Lemma bind_modify_self {B : Type} (f : Cache -> Cache) (k : unit -> M B) (s : World * Cache) :
  bind (modify_self f) k s = k tt (fst s, f (snd s)).
Proof. reflexivity. Qed.

Lemma chain_ok_detached (c : Cache) (l : nat) :
  chain_ok c -> l ∈ _item_list c -> chain_ok (detached c l).
Proof.
  intros Hc Hl. apply chain_ok_unfold in Hc as [Ht Hp]. apply chain_ok_unfold.
  split; [apply tier_ok_detached; assumption|].
  cache_simpl. destruct (_parent_cache c) as [p|]; [|exact I].
  destruct Hp as [Hp Hdis]. split; [exact Hp|].
  rewrite (resident_detached c _ l eq_refl). set_solver.
Qed.

Lemma chain_ok_touched (c : Cache) (l : nat) (t : Q) :
  chain_ok c -> l ∈ _item_list c -> chain_ok (touched c l t).
Proof.
  intros Hc Hl. apply chain_ok_unfold in Hc as [Ht Hp]. apply chain_ok_unfold.
  split; [apply tier_ok_touched; assumption|]. exact Hp.
Qed.

Lemma tier_ok_lookup (c : Cache) (k : pyval) (l : nat) :
  tier_ok c -> _item_dict c !! k = Some l ->
  l ∈ _item_list c /\ key (objects c !!! l) = k /\ (l < length (objects c))%nat.
Proof.
  intros (_ & Hd & Hr & _) Hk. apply Hd in Hk as [Hin Hkey]. auto.
Qed.

(** The item object [put_value] stores into: the one the key had, taken
    out of the cache and reset, or a new one. *)
Lemma put_slot (k : pyval) (w : World) (c : Cache) :
  chain_ok c ->
  exists l c2,
    (forall (B : Type) (K : nat -> M B),
       bind (match _item_dict c !! k with
             | Some l =>
                 (_remove_item l ;;;
                  let* item := read_item l in
                  modify_self (fun c0 => set_size c0 (_size c0 - stored_size item)%Q) ;;;
                  Item_discard l (_store c) k ;;;
                  ret l)
             | None => new_item
             end) K (w, c) = K l (w, c2))
    /\ chain_ok c2 /\ static c c2 /\ _parent_cache c2 = _parent_cache c
    /\ (l ∉ _item_list c2) /\ (l < length (objects c2))%nat
    /\ _item_dict c2 !! k = None
    /\ (forall l', l' ∈ _item_list c2 ->
          l' ∈ _item_list c /\ same_kvs (objects c2 !!! l') (objects c !!! l')).
Proof.
  intros Hc. pose proof (chain_ok_tier c Hc) as Ht.
  destruct (_item_dict c !! k) as [l|] eqn:Ek.
  - destruct (tier_ok_lookup c k l Ht Ek) as (Hin & Hkey & Hlt).
    assert (Hsome : is_Some (_item_dict c !! key (objects c !!! l)))
      by (rewrite Hkey; eauto).
    pose proof (shrink_detached c l (proj1 Ht) Hin) as (Hst & Hlen & Hsub & Hsame & _).
    exists l, (detached c l). split_and!.
    + intros B K.
      rewrite (bind_run _ K (w, c) (w, detached c l) l); [reflexivity|].
      apply (detach_run (_store c) k (ret l) l w c Hsome Hin).
    + apply chain_ok_detached; assumption.
    + exact Hst.
    + reflexivity.
    + cache_simpl. intros Hl. apply elem_of_list_remove_first in Hl; [|apply Ht|exact Hin].
      destruct Hl as [_ Hne]. congruence.
    + rewrite Hlen. exact Hlt.
    + cache_simpl. rewrite Hkey. apply lookup_delete_eq.
    + intros l' Hl'. split; [|apply Hsame; exact Hl'].
      eapply elem_of_submseteq; eauto.
  - exists (length (objects c)), (set_objects c (objects c ++ [Item_init])). split_and!.
    + intros B K. reflexivity.
    + apply chain_ok_unfold in Hc as [_ Hp]. apply chain_ok_unfold.
      split; [apply tier_ok_new_item; exact Ht | exact Hp].
    + unfold static. cache_simpl. split_and!; try reflexivity. destruct c; reflexivity.
    + reflexivity.
    + cache_simpl. intros Hl. destruct Ht as (_ & _ & Hr & _). apply Hr in Hl. lia.
    + cache_simpl. rewrite length_app. simpl. lia.
    + exact Ek.
    + intros l' Hl'. split; [exact Hl'|]. cache_simpl.
      destruct Ht as (_ & _ & Hr & _).
      rewrite lookup_total_app_l by (apply Hr; exact Hl'). apply same_kvs_refl.
Qed.

Lemma static_has_parent (c c' : Cache) : static c c' -> has_parent c' = has_parent c.
Proof.
  intros (_ & _ & _ & Hd). rewrite !depth_unfold in Hd. unfold has_parent.
  destruct (_parent_cache c), (_parent_cache c'); congruence.
Qed.

Lemma shrink_static (c c' : Cache) : shrink c c' -> static c c'.
Proof. intros H. apply H. Qed.

Lemma get_post_resident (p p' : Cache) (k : pyval) (r : outcome pyval) :
  get_post p k r p' -> resident p' = resident p.
Proof. intros (_ & _ & _ & _ & Ed & _). unfold resident. rewrite Ed. reflexivity. Qed.

Lemma put_post_resident (p p' : Cache) (k v : pyval) (r : outcome unit) :
  tier_ok p -> put_post p k v r p' -> resident p' ⊆ resident p ∪ {[k]}.
Proof.
  intros (_ & Hd & _) (_ & Hc' & _ & (l & Hk & _ & _ & Hl) & _).
  destruct (chain_ok_tier p' Hc') as (_ & Hd' & _).
  intros k' Hk'. unfold resident in *. apply elem_of_dom in Hk' as [l' Hl'].
  pose proof Hl' as Hl''. apply Hd' in Hl'' as [Hin Hkey].
  destruct (Hl l' Hin) as [->|[Hin0 Hsame]].
  - assert (k' = k); [|set_solver].
    apply Hd' in Hk as [_ Hk]. congruence.
  - apply elem_of_union_l. apply elem_of_dom. exists l'.
    apply Hd. split; [exact Hin0|]. rewrite <- Hkey. symmetry. apply Hsame.
Qed.

Lemma has_parent_true (c : Cache) :
  has_parent c = true -> exists p, _parent_cache c = Some p.
Proof. unfold has_parent. destruct (_parent_cache c); [eauto | discriminate]. Qed.

Lemma shrink_set_item_list (c : Cache) (l' : list nat) :
  l' ≡ₚ _item_list c -> shrink c (set_item_list c l').
Proof.
  intros Hp. unfold shrink, static. cache_simpl.
  assert (Hd : depth (set_item_list c l') = depth c) by (destruct c; reflexivity).
  split_and!; try reflexivity; try exact Hd.
  - rewrite Hp. reflexivity.
  - intros l _. apply same_kvs_refl.
Qed.

Lemma resident_empty_list (c : Cache) : tier_ok c -> resident c = ∅ -> _item_list c = [].
Proof.
  intros (_ & Hd & _) He. destruct (_item_list c) as [|l rest] eqn:El; [reflexivity|].
  exfalso. assert (Hk : _item_dict c !! key (objects c !!! l) = Some l).
  { apply Hd. split; [set_solver | reflexivity]. }
  assert (Hin : key (objects c !!! l) ∈ resident c).
  { unfold resident. apply elem_of_dom. eauto. }
  rewrite He in Hin. set_solver.
Qed.

Lemma empty_list_resident (c : Cache) : tier_ok c -> _item_list c = [] -> resident c = ∅.
Proof.
  intros (_ & Hd & _) He. apply set_eq. intros k. split; [|set_solver].
  unfold resident. intros Hk. apply elem_of_dom in Hk as [l Hl].
  apply Hd in Hl as [Hin _]. rewrite He in Hin. inversion Hin.
Qed.

(** The methods of the parent behave, if there is a parent: [od] is its
    depth. *)
Variable pm : methods.
Variable od : option nat.
Hypothesis Hpm : forall d, od = Some d -> ok_methods pm d.

Lemma parent_get_value (k : pyval) (w : World) (p : Cache) :
  od = Some (depth p) -> chain_ok p ->
  exists w' p' r, m_get_value pm k (w, p) = ((w', p'), r) /\ get_post p k r p'.
Proof.
  intros Hd Hc. destruct (Hpm (depth p) Hd w p eq_refl Hc) as (H & _). specialize (H k).
  destruct (m_get_value pm k (w, p)) as [[w' p'] r]. eauto.
Qed.

Lemma parent_remove_value (k : pyval) (w : World) (p : Cache) :
  od = Some (depth p) -> chain_ok p ->
  exists w' p', m_remove_value pm k (w, p) = ((w', p'), Returns tt)
                /\ remove_post p k (Returns tt) p'.
Proof.
  intros Hd Hc. destruct (Hpm (depth p) Hd w p eq_refl Hc) as (_ & H & _). specialize (H k).
  destruct (m_remove_value pm k (w, p)) as [[w' p'] r]. cbn [fst snd] in H.
  assert (r = Returns tt) as -> by apply H. eauto.
Qed.

Lemma parent_put_value (k v : pyval) (w : World) (p : Cache) :
  od = Some (depth p) -> chain_ok p ->
  exists w' p', m_put_value pm k v (w, p) = ((w', p'), Returns tt)
                /\ put_post p k v (Returns tt) p'.
Proof.
  intros Hd Hc. destruct (Hpm (depth p) Hd w p eq_refl Hc) as (_ & _ & H & _). specialize (H k v).
  destruct (m_put_value pm k v (w, p)) as [[w' p'] r]. cbn [fst snd] in H.
  assert (r = Returns tt) as -> by apply H. eauto.
Qed.

Lemma parent_clear (b : bool) (w : World) (p : Cache) :
  od = Some (depth p) -> chain_ok p ->
  exists w' p', m_clear pm b (w, p) = ((w', p'), Returns tt)
                /\ clear_post p (Returns tt) p'.
Proof.
  intros Hd Hc. destruct (Hpm (depth p) Hd w p eq_refl Hc) as (_ & _ & _ & H). specialize (H b).
  destruct (m_clear pm b (w, p)) as [[w' p'] r]. cbn [fst snd] in H.
  assert (r = Returns tt) as -> by apply H. eauto.
Qed.

(** The first step of [remove_value] and [put_value]: the key is removed
    from the parent, if there is one. *)
Lemma parent_remove_step (k : pyval) (w : World) (c : Cache) :
  chain_ok_but k c -> parent_depth c od ->
  exists w1 c1,
    (if has_parent c then on_parent (m_remove_value pm k) else ret tt) (w, c)
      = ((w1, c1), Returns tt)
    /\ chain_ok c1 /\ shrink c c1 /\ parent_depth c1 od
    /\ _item_dict c1 = _item_dict c /\ _item_list c1 = _item_list c
    /\ objects c1 = objects c /\ _size c1 = _size c
    /\ parent_resident c1 ⊆ parent_resident c ∖ {[k]}.
Proof.
  intros [Ht Hp] Hpd. unfold parent_depth, parent_resident in *.
  destruct (_parent_cache c) as [p|] eqn:Ep.
  - destruct Hp as [Hp Hdis].
    destruct (parent_remove_value k w p Hpd Hp) as (w1 & p1 & Hrun & _ & Hp1 & Hsh & Hres & _).
    exists w1, (set_parent c p1).
    rewrite (has_parent_Some c p Ep), (on_parent_run _ _ _ _ _ _ _ Ep Hrun).
    destruct Hsh as ((_ & _ & _ & Hd1) & _).
    split; [reflexivity|]. split_and!; try reflexivity.
    + apply chain_ok_unfold. split; [exact Ht|]. cache_simpl.
      split; [exact Hp1|]. rewrite resident_set_parent, Hres. set_solver.
    + apply (shrink_set_parent c p p1 Ep Hd1).
    + cache_simpl. congruence.
    + cache_simpl. rewrite Hres. set_solver.
  - exists w, c. rewrite (has_parent_None c Ep).
    split; [reflexivity|]. split_and!; try reflexivity.
    + apply chain_ok_unfold. rewrite Ep. auto.
    + apply shrink_refl.
    + rewrite Ep. exact I.
    + rewrite Ep. set_solver.
Qed.

Lemma remove_value_body_spec (k : pyval) (w : World) (c : Cache) :
  chain_ok_but k c -> parent_depth c od ->
  exists w' c', remove_value_body pm k (w, c) = ((w', c'), Returns tt)
                /\ remove_post c k (Returns tt) c'.
Proof.
  intros Hc Hpd.
  destruct (parent_remove_step k w c Hc Hpd)
    as (w1 & c1 & Hrun & Hc1 & Hsh & Hpd1 & Ed & El & Eo & Es & Hpr).
  unfold remove_value_body. rewrite bind_get_self. cbv beta. cache_simpl.
  rewrite (bind_run _ _ _ _ _ Hrun). rewrite bind_get_self. cbv beta. cache_simpl.
  pose proof (chain_ok_tier c1 Hc1) as Ht1.
  destruct (_item_dict c1 !! k) as [l|] eqn:Ek.
  - destruct (tier_ok_lookup c1 k l Ht1 Ek) as (Hin & Hkey & Hlt).
    rewrite detach_run_last; [|rewrite Hkey; eauto | exact Hin].
    exists w1, (detached c1 l). split; [reflexivity|].
    unfold remove_post. split_and!.
    + reflexivity.
    + apply chain_ok_detached; assumption.
    + eapply shrink_trans; [exact Hsh|]. apply shrink_detached; [apply Ht1 | exact Hin].
    + rewrite (resident_detached c1 k l Hkey). unfold resident. rewrite Ed. reflexivity.
    + cache_simpl. rewrite <- Ed, Ek, El. reflexivity.
    + exact Hpr.
  - exists w1, c1. split; [reflexivity|].
    unfold remove_post. split_and!; try assumption; try reflexivity.
    + unfold resident. rewrite Ed in *. apply not_elem_of_dom in Ek. set_solver.
    + rewrite <- Ed, Ek. exact El.
Qed.

Lemma static_parent_depth (c c' : Cache) :
  static c c' -> parent_depth c od -> parent_depth c' od.
Proof.
  intros (_ & _ & _ & Hd). rewrite !depth_unfold in Hd. unfold parent_depth.
  destruct (_parent_cache c), (_parent_cache c'); try congruence; auto.
Qed.

Lemma get_value_body_spec (k : pyval) (w : World) (c : Cache) :
  chain_ok c -> parent_depth c od ->
  exists w' c' r, get_value_body pm k (w, c) = ((w', c'), r) /\ get_post c k r c'.
Proof.
  intros Hc Hpd. pose proof (chain_ok_tier c Hc) as Ht.
  destruct (_item_dict c !! k) as [l|] eqn:Ek.
  - destruct (tier_ok_lookup c k l Ht Ek) as (Hin & Hkey & Hlt).
    rewrite (get_value_body_hit pm k l w c Ek Hlt).
    eexists _, _, _. split; [reflexivity|].
    unfold get_post. split_and!; try reflexivity.
    + discriminate.
    + apply chain_ok_touched; assumption.
    + apply shrink_touched; assumption.
    + intros l' Hl'. congruence.
    + intros Hnone. congruence.
  - unfold get_value_body. rewrite bind_get_self. cbv beta. cache_simpl. rewrite Ek.
    apply chain_ok_unfold in Hc as [_ Hp]. unfold parent_depth in Hpd.
    destruct (_parent_cache c) as [p|] eqn:Ep.
    + destruct Hp as [Hp Hdis].
      destruct (parent_get_value k w p Hpd Hp) as (w1 & p1 & r & Hrun & Hpost).
      pose proof (on_parent_run _ _ _ _ _ _ _ Ep Hrun) as Hrun'.
      assert (Hpost' : forall r', r' <> OutOfFuel ->
                         (forall v, r' = Returns v -> v = PyNone) ->
                         get_post c k r' (set_parent c p1)).
      { intros r' Hr' Hnone. pose proof (get_post_resident _ _ _ _ Hpost) as Hres.
        destruct Hpost as (_ & Hc1 & Hsh & _).
        unfold get_post. split_and!; try reflexivity.
        - exact Hr'.
        - apply chain_ok_unfold. split; [exact Ht|]. cache_simpl.
          split; [exact Hc1|]. rewrite resident_set_parent, Hres. exact Hdis.
        - apply (shrink_set_parent c p p1 Ep). apply Hsh.
        - intros l Hl. congruence.
        - intros _. exact Hnone. }
      destruct r as [item|e|].
      * rewrite (bind_run _ _ _ _ _ Hrun'). destruct (truthy item).
        -- eexists _, _, _. split; [reflexivity|].
           apply Hpost'; [discriminate | intros v Hv; inversion Hv].
        -- eexists _, _, _. split; [reflexivity|].
           apply Hpost'; [discriminate | intros v Hv; inversion Hv; reflexivity].
      * rewrite (bind_raises _ _ _ _ _ Hrun').
        eexists _, _, _. split; [reflexivity|].
        apply Hpost'; [discriminate | intros v Hv; inversion Hv].
      * exfalso. destruct Hpost as (Hr & _). apply Hr. reflexivity.
    + exists w, c, (Returns PyNone). split; [reflexivity|].
      unfold get_post. split_and!; try reflexivity.
      * discriminate.
      * apply chain_ok_unfold. rewrite Ep. auto.
      * apply shrink_refl.
      * intros l Hl. congruence.
      * intros _ v Hv. inversion Hv. reflexivity.
Qed.

(** One victim of [trim] leaves this cache; if there is a parent, it is
    the only key the parent may have gained. *)
Lemma trim_evict_spec (k : pyval) (l : nat) (w : World) (c : Cache) :
  chain_ok c -> parent_depth c od -> _item_dict c !! k = Some l ->
  exists w' c',
    trim_evict pm k (w, c) = ((w', c'), Returns tt)
    /\ chain_ok c' /\ shrink c c'
    /\ _item_list c' = list_remove_first l (_item_list c)
    /\ parent_resident c' ⊆ parent_resident c ∪ {[k]}.
Proof.
  intros Hc Hpd Ek. pose proof (chain_ok_tier c Hc) as Ht.
  destruct (tier_ok_lookup c k l Ht Ek) as (Hin & Hkey & Hlt).
  unfold trim_evict. rewrite bind_get_self. cbv beta. cache_simpl.
  destruct (has_parent c) eqn:Ehp.
  - rewrite (bind_run _ _ _ _ _ (get_value_body_hit pm k l w c Ek Hlt)).
    set (c1 := touched c l (now w)).
    set (value := restore_value (_store c) k (stored_value (objects c !!! l))).
    assert (Hc1 : chain_ok c1) by (apply chain_ok_touched; assumption).
    assert (Hsh1 : shrink c c1) by (apply shrink_touched; assumption).
    assert (Hpd1 : parent_depth c1 od) by exact Hpd.
    destruct (remove_value_body_spec k (tick w) c1 (chain_ok_chain_ok_but k c1 Hc1) Hpd1)
      as (w2 & c2 & Hrun2 & _ & Hc2 & Hsh2 & Hres2 & Hl2 & Hpr2).
    rewrite (bind_run _ _ _ _ _ Hrun2).
    change (_item_dict c1) with (_item_dict c) in Hl2. rewrite Ek in Hl2.
    change (_item_list c1) with (_item_list c) in Hl2.
    change (parent_resident c1) with (parent_resident c) in Hpr2.
    destruct (truthy value).
    + assert (Hhp2 : has_parent c2 = true).
      { rewrite (static_has_parent c c2); [exact Ehp|].
        eapply static_trans; apply shrink_static; eassumption. }
      destruct (has_parent_true c2 Hhp2) as [p2 Ep2].
      assert (Hpd2 : parent_depth c2 od).
      { apply (static_parent_depth c1 c2); [apply Hsh2 | exact Hpd1]. }
      pose proof Hc2 as Hc2'. apply chain_ok_unfold in Hc2' as [Ht2 Hp2].
      rewrite Ep2 in Hp2. destruct Hp2 as [Hp2 Hdis2].
      unfold parent_depth in Hpd2. rewrite Ep2 in Hpd2.
      destruct (parent_put_value k value w2 p2 Hpd2 Hp2) as (w3 & p3 & Hrun3 & Hpost3).
      rewrite (on_parent_run _ _ _ _ _ _ _ Ep2 Hrun3).
      pose proof (put_post_resident p2 p3 k value _ (chain_ok_tier p2 Hp2) Hpost3) as Hres3.
      destruct Hpost3 as (_ & Hc3 & (_ & _ & _ & Hd3) & _).
      exists w3, (set_parent c2 p3). split; [reflexivity|]. split_and!.
      * apply chain_ok_unfold. split; [exact Ht2|]. cache_simpl.
        split; [exact Hc3|]. rewrite resident_set_parent. rewrite Hres2 in *.
        set_solver.
      * eapply shrink_trans; [exact Hsh1|]. eapply shrink_trans; [exact Hsh2|].
        apply (shrink_set_parent c2 p2 p3 Ep2 Hd3).
      * exact Hl2.
      * unfold parent_resident in *. cache_simpl. rewrite Ep2 in Hpr2. set_solver.
    + exists w2, c2. split; [reflexivity|]. split_and!.
      * exact Hc2.
      * eapply shrink_trans; eassumption.
      * exact Hl2.
      * set_solver.
  - destruct (remove_value_body_spec k w c (chain_ok_chain_ok_but k c Hc) Hpd)
      as (w2 & c2 & Hrun2 & _ & Hc2 & Hsh2 & Hres2 & Hl2 & Hpr2).
    rewrite Ek in Hl2.
    exists w2, c2. split; [exact Hrun2|]. split_and!; try assumption. set_solver.
Qed.

Lemma trim_loop (objs0 : list Item) (suf : list nat) :
  forall (rem : list nat) (w : World) (c : Cache),
    chain_ok c -> parent_depth c od ->
    _item_list c ≡ₚ rem ++ suf ->
    (forall l, l ∈ rem -> key (objects c !!! l) = key (objs0 !!! l)) ->
    exists w' c',
      for_each ((fun l => key (objs0 !!! l)) <$> rem) (trim_evict pm) (w, c)
        = ((w', c'), Returns tt)
      /\ chain_ok c' /\ shrink c c'
      /\ _item_list c' ≡ₚ suf
      /\ parent_resident c' ⊆ parent_resident c ∪ resident c.
Proof.
  induction rem as [|l rem IH]; intros w c Hc Hpd Hperm Hkeys.
  - exists w, c. split; [reflexivity|]. split_and!.
    + exact Hc.
    + apply shrink_refl.
    + exact Hperm.
    + set_solver.
  - pose proof (chain_ok_tier c Hc) as Ht.
    assert (Hin : l ∈ _item_list c) by (rewrite Hperm; set_solver).
    assert (Ek : _item_dict c !! key (objs0 !!! l) = Some l).
    { destruct Ht as (_ & Hd & _). apply Hd. split; [exact Hin|].
      apply Hkeys. set_solver. }
    destruct (trim_evict_spec _ l w c Hc Hpd Ek)
      as (w1 & c1 & Hrun1 & Hc1 & Hsh1 & Hl1 & Hpr1).
    assert (Hperm1 : _item_list c1 ≡ₚ rem ++ suf).
    { rewrite Hl1. apply (Permutation_cons_inv (a := l)).
      rewrite <- (list_remove_first_Permutation l _ Hin). exact Hperm. }
    assert (Hkeys1 : forall l', l' ∈ rem -> key (objects c1 !!! l') = key (objs0 !!! l')).
    { intros l' Hl'. rewrite <- Hkeys by set_solver.
      destruct Hsh1 as (_ & _ & _ & Hsame & _). apply Hsame.
      rewrite Hperm1. set_solver. }
    destruct (IH w1 c1 Hc1 (static_parent_depth c c1 (shrink_static _ _ Hsh1) Hpd)
                 Hperm1 Hkeys1)
      as (w2 & c2 & Hrun2 & Hc2 & Hsh2 & Hperm2 & Hpr2).
    exists w2, c2. split.
    + rewrite fmap_cons. cbn [for_each]. rewrite (bind_run _ _ _ _ _ Hrun1). exact Hrun2.
    + split_and!.
      * exact Hc2.
      * eapply shrink_trans; eassumption.
      * exact Hperm2.
      * pose proof (shrink_resident c c1 Ht (chain_ok_tier c1 Hc1) Hsh1) as Hsub.
        assert (key (objs0 !!! l) ∈ resident c).
        { unfold resident. apply elem_of_dom. eauto. }
        set_solver.
Qed.

Lemma trim_body_spec (extra_size : Q) (w : World) (c : Cache) :
  chain_ok c -> parent_depth c od ->
  exists w' c', trim_body pm extra_size (w, c) = ((w', c'), Returns tt)
                /\ trim_post c extra_size (Returns tt) c'.
Proof.
  intros Hc Hpd. pose proof (chain_ok_tier c Hc) as Ht.
  unfold trim_body. rewrite bind_modify_self. cbv beta. cache_simpl.
  rewrite bind_get_self. cbv beta zeta. cache_simpl.
  set (sorted := sort_by (fun l => _policy c (objects c !!! l)) (_item_list c)).
  assert (Hsorted : sorted ≡ₚ _item_list c) by apply sort_by_Permutation.
  set (cs := set_item_list c sorted).
  assert (Hcs : chain_ok cs).
  { apply chain_ok_unfold in Hc as [_ Hp]. apply chain_ok_unfold.
    split; [apply tier_ok_permute; assumption | exact Hp]. }
  destruct (select_victims_prefix (objects c) extra_size (_max_size c) sorted (_size c))
    as (pre & suf & E & Hsel & Hb).
  rewrite Hsel.
  destruct (trim_loop (objects c) suf pre w cs Hcs Hpd) as (w' & c' & Hrun & Hc' & Hsh & Hperm & Hpr).
  { unfold cs. cache_simpl. rewrite E. reflexivity. }
  { intros l _. reflexivity. }
  exists w', c'. split; [exact Hrun|].
  assert (Hshc : shrink c c').
  { eapply shrink_trans; [|exact Hsh]. apply shrink_set_item_list. exact Hsorted. }
  unfold trim_post. split_and!.
  - reflexivity.
  - exact Hc'.
  - exact Hshc.
  - destruct Hb as [->|Hb].
    + left. apply Permutation_nil_r. exact Hperm.
    + right.
      destruct (chain_ok_tier c' Hc') as (_ & _ & _ & Hsz').
      destruct Ht as (_ & _ & _ & Hsz).
      assert (E1 : (Qsum (stored c' <$> _item_list c') == Qsum (stored c <$> suf))%Q).
      { rewrite (stored_fmap_ext c c') by apply Hshc.
        apply Qsum_Permutation. apply fmap_Permutation. exact Hperm. }
      assert (E2 : (Qsum (stored c <$> _item_list c)
                    == Qsum (stored c <$> pre) + Qsum (stored c <$> suf))%Q).
      { rewrite <- Qsum_app, <- fmap_app, <- E.
        apply Qsum_Permutation. apply fmap_Permutation. symmetry. exact Hsorted. }
      change ((fun l => stored_size (objects c !!! l)) <$> pre) with (stored c <$> pre) in Hb.
      rewrite Hsz', E1. rewrite Hsz, E2 in Hb. lra.
  - exact Hpr.
Qed.

Lemma put_value_body_spec (k v : pyval) (w : World) (c : Cache) :
  chain_ok c -> parent_depth c od ->
  exists w' c', put_value_body pm k v (w, c) = ((w', c'), Returns tt)
                /\ put_post c k v (Returns tt) c'.
Proof.
  intros Hc Hpd.
  destruct (parent_remove_step k w c (chain_ok_chain_ok_but k c Hc) Hpd)
    as (w1 & c1 & Hrun1 & Hc1 & Hsh1 & Hpd1 & Ed1 & El1 & Eo1 & Es1 & Hpr1).
  destruct (put_slot k w1 c1 Hc1)
    as (l & c2 & Hrun2 & Hc2 & Hst2 & Ep2 & Hl2 & Hlt2 & Hk2 & Hfr2).
  unfold put_value_body. rewrite bind_get_self. cbv beta. cache_simpl.
  rewrite (bind_run _ _ _ _ _ Hrun1). rewrite bind_get_self. cbv beta. cache_simpl.
  rewrite Hrun2.
  rewrite (bind_run _ _ _ _ _ (Item_store_run l (_store c1) k v w1 c2 Hlt2)).
  set (sv := fst (store_value (_store c1) k v)).
  set (ssz := snd (store_value (_store c1) k v)).
  set (item := mkItem k sv ssz (creation_time (objects c2 !!! l)) (now w1) 1).
  set (c3 := set_objects c2 (<[l := item]> (objects c2))).
  assert (Ho3 : objects c3 !!! l = item).
  { unfold c3. cache_simpl. apply list_lookup_total_insert_eq. exact Hlt2. }
  assert (Hc3 : chain_ok c3).
  { pose proof Hc2 as Hc2'. apply chain_ok_unfold in Hc2' as [Ht2 Hp2].
    apply chain_ok_unfold. split; [|exact Hp2].
    apply tier_ok_write_unlisted; assumption. }
  assert (Hst3 : static c2 c3).
  { unfold static, c3. cache_simpl. split_and!; try reflexivity. destruct c2; reflexivity. }
  assert (Hstore : _store c1 = _store c) by apply Hsh1.
  rewrite bind_read_item. cbv beta. cache_simpl. fold c3. rewrite Ho3.
  rewrite bind_get_self. cbv beta. cache_simpl. fold c3.
  assert (Htrim : exists w4 c4,
             (if Qlt_le_dec (_max_size c3) (_size c3 + stored_size item)
              then trim_body pm (stored_size item) else ret tt) (tick w1, c3)
             = ((w4, c4), Returns tt)
             /\ chain_ok c4 /\ shrink c3 c4
             /\ (_item_list c4 = [] \/ (_size c4 + ssz <= _max_size c3)%Q)
             /\ parent_resident c4 ⊆ parent_resident c3 ∪ resident c3).
  { destruct (Qlt_le_dec (_max_size c3) (_size c3 + stored_size item)) as [Hgt|Hle].
    - destruct (trim_body_spec (stored_size item) (tick w1) c3 Hc3) as (w4 & c4 & Hrun & Hpost).
      { apply (static_parent_depth c2 c3 Hst3).
        apply (static_parent_depth c1 c2 Hst2). exact Hpd1. }
      destruct Hpost as (_ & Hc4 & Hsh4 & Hb4 & Hpr4).
      exists w4, c4. split_and!; assumption.
    - exists (tick w1), c3. split_and!.
      + reflexivity.
      + exact Hc3.
      + apply shrink_refl.
      + right. exact Hle.
      + set_solver. }
  destruct Htrim as (w4 & c4 & Hrun4 & Hc4 & Hsh4 & Hb4 & Hpr4).
  rewrite (bind_run _ _ _ _ _ Hrun4).
  pose proof (chain_ok_tier c4 Hc4) as Ht4.
  destruct Hsh4 as (Hst4 & Hlen4 & Hsub4 & Hsame4 & Hout4).
  assert (Hl3 : l ∉ _item_list c3) by exact Hl2.
  assert (Ho4 : objects c4 !!! l = item) by (rewrite (Hout4 l Hl3); exact Ho3).
  assert (Hl4 : l ∉ _item_list c4).
  { intros Hin. apply Hl3. eapply elem_of_submseteq; eauto. }
  assert (Hlt4 : (l < length (objects c4))%nat).
  { rewrite Hlen4. unfold c3. cache_simpl. rewrite length_insert. exact Hlt2. }
  assert (Hk3 : k ∉ resident c3).
  { unfold resident, c3. cache_simpl. apply not_elem_of_dom. exact Hk2. }
  assert (Hk4 : _item_dict c4 !! k = None).
  { apply not_elem_of_dom. intros Hin. apply Hk3.
    apply (shrink_resident c3 c4 (chain_ok_tier c3 Hc3) Ht4); [|exact Hin].
    split_and!; assumption. }
  assert (Hkp4 : k ∉ parent_resident c4).
  { intros Hin. apply Hpr4 in Hin. apply elem_of_union in Hin as [Hin|Hin]; [|contradiction].
    assert (Hin1 : k ∈ parent_resident c1).
    { unfold parent_resident in *. unfold c3 in Hin. cache_simpl in Hin.
      rewrite Ep2 in Hin. exact Hin. }
    apply Hpr1 in Hin1. set_solver. }
  rewrite bind_read_item. cbv beta. cache_simpl. rewrite Ho4.
  rewrite bind_modify_self. cbv beta. cache_simpl.
  rewrite _add_item_run. cache_simpl. rewrite Ho4.
  cbn [key stored_size stored_value item].
  assert (E5 : set_item_list
                 (set_item_dict (set_size c4 (_size c4 + ssz)%Q) (<[k := l]> (_item_dict c4)))
                 (_item_list c4 ++ [l]) = attached c4 l).
  { unfold attached. rewrite Ho4. reflexivity. }
  rewrite E5.
  exists w4, (attached c4 l). split; [reflexivity|].
  assert (Hst : static c c4).
  { eapply static_trans; [apply Hsh1|]. eapply static_trans; [exact Hst2|].
    eapply static_trans; [exact Hst3 | exact Hst4]. }
  unfold put_post. split_and!.
  - reflexivity.
  - apply chain_ok_unfold. split.
    + apply tier_ok_attached; try assumption. rewrite Ho4. exact Hk4.
    + apply chain_ok_unfold in Hc4 as [_ Hp4]. cache_simpl.
      unfold parent_resident in Hkp4.
      destruct (_parent_cache c4) as [p4|]; [|exact I].
      destruct Hp4 as [Hp4 Hdis4]. split; [exact Hp4|].
      rewrite resident_attached, Ho4. cbn [key item]. set_solver.
  - eapply static_trans; [exact Hst|]. unfold static. cache_simpl.
    split_and!; try reflexivity. destruct c4; reflexivity.
  - exists l. cache_simpl. rewrite Ho4. split_and!.
    + apply lookup_insert_eq.
    + unfold item, sv. cbn [stored_value]. congruence.
    + unfold item, ssz. cbn [stored_size]. congruence.
    + intros l' Hl'. apply elem_of_app in Hl' as [Hl'|Hl'].
      * right. pose proof (elem_of_submseteq _ _ _ Hl' Hsub4) as Hl3'.
        destruct (Hfr2 l' Hl3') as [Hl1' Hsame2].
        split; [rewrite <- El1; exact Hl1'|].
        eapply same_kvs_trans; [apply Hsame4; exact Hl'|].
        assert (Hne : l' <> l) by (intros ->; contradiction).
        unfold c3. cache_simpl. rewrite list_lookup_total_insert_ne by congruence.
        rewrite <- Eo1. exact Hsame2.
      * left. apply list_elem_of_singleton in Hl'. exact Hl'.
  - destruct Hb4 as [Hnil|Hle].
    + right. cache_simpl. rewrite Ho4. cbn [stored_size item].
      destruct Ht4 as (_ & _ & _ & Hsz4).
      rewrite Hnil in Hsz4. change (Qsum (stored c4 <$> [])) with 0%Q in Hsz4.
      assert (Hssz : ssz = snd (store_value (_store c) k v)) by (unfold ssz; congruence).
      rewrite <- Hssz, Hsz4. lra.
    + left. cache_simpl. rewrite Ho4. cbn [stored_size item].
      assert (Hmx : _max_size c3 = _max_size c).
      { destruct Hsh1 as ((_ & _ & Hm1 & _) & _). destruct Hst2 as (_ & _ & Hm2 & _).
        destruct Hst3 as (_ & _ & Hm3 & _). congruence. }
      rewrite <- Hmx. exact Hle.
Qed.

(** One key of [clear]: it leaves this cache, whatever was copied up. *)
Lemma clear_key_spec (b : bool) (k : pyval) (l : nat) (w : World) (c : Cache) :
  chain_ok c -> parent_depth c od -> _item_dict c !! k = Some l ->
  exists w' c',
    clear_key pm b k (w, c) = ((w', c'), Returns tt)
    /\ chain_ok c' /\ static c c' /\ resident c' = resident c ∖ {[k]}
    /\ parent_resident c' ⊆ parent_resident c.
Proof.
  intros Hc Hpd Ek. pose proof (chain_ok_tier c Hc) as Ht.
  destruct (tier_ok_lookup c k l Ht Ek) as (Hin & Hkey & Hlt).
  unfold clear_key. rewrite bind_get_self. cbv beta. cache_simpl.
  assert (Hcopy : exists w1 c1,
            (if has_parent c then
               if negb b then
                 let* value := get_value_body pm k in
                 if truthy value then on_parent (m_put_value pm k value) else ret tt
               else ret tt
             else ret tt) (w, c) = ((w1, c1), Returns tt)
            /\ chain_ok_but k c1 /\ static c c1 /\ resident c1 = resident c
            /\ parent_resident c1 ⊆ parent_resident c ∪ {[k]}).
  { assert (Hsame : chain_ok_but k c /\ static c c /\ resident c = resident c
                    /\ parent_resident c ⊆ parent_resident c ∪ {[k]}).
    { split_and!; [apply chain_ok_chain_ok_but; exact Hc | apply static_refl
                   | reflexivity | set_solver]. }
    destruct (has_parent c) eqn:Ehp; [|exists w, c; split; [reflexivity | exact Hsame]].
    destruct (negb b); [|exists w, c; split; [reflexivity | exact Hsame]].
    rewrite (bind_run _ _ _ _ _ (get_value_body_hit pm k l w c Ek Hlt)).
    set (c1 := touched c l (now w)).
    set (value := restore_value (_store c) k (stored_value (objects c !!! l))).
    assert (Hc1 : chain_ok c1) by (apply chain_ok_touched; assumption).
    assert (Hst1 : static c c1) by (apply shrink_static, shrink_touched; assumption).
    destruct (truthy value).
    - destruct (has_parent_true c Ehp) as [p Ep].
      pose proof Hc1 as Hc1'. apply chain_ok_unfold in Hc1' as [Ht1 Hp1].
      change (_parent_cache c1) with (_parent_cache c) in Hp1. rewrite Ep in Hp1.
      destruct Hp1 as [Hp Hdis].
      unfold parent_depth in Hpd. rewrite Ep in Hpd.
      destruct (parent_put_value k value (tick w) p Hpd Hp) as (w2 & p2 & Hrun2 & Hpost2).
      assert (Ep1 : _parent_cache c1 = Some p) by exact Ep.
      rewrite (on_parent_run _ _ _ _ _ _ _ Ep1 Hrun2).
      pose proof (put_post_resident p p2 k value _ (chain_ok_tier p Hp) Hpost2) as Hres2.
      destruct Hpost2 as (_ & Hc2 & (_ & _ & _ & Hd2) & _).
      exists w2, (set_parent c1 p2). split; [reflexivity|]. split_and!.
      + unfold chain_ok_but. split; [exact Ht1|]. cache_simpl.
        split; [exact Hc2|]. rewrite resident_set_parent.
        change (resident c1) with (resident c) in *. set_solver.
      + eapply static_trans; [exact Hst1|].
        apply shrink_static. apply (shrink_set_parent c1 p p2 Ep1 Hd2).
      + reflexivity.
      + unfold parent_resident. cache_simpl. rewrite Ep. exact Hres2.
    - exists (tick w), c1. split; [reflexivity|]. split_and!.
      + apply chain_ok_chain_ok_but. exact Hc1.
      + exact Hst1.
      + reflexivity.
      + change (parent_resident c1) with (parent_resident c). set_solver. }
  destruct Hcopy as (w1 & c1 & Hrun1 & Hc1 & Hst1 & Hres1 & Hpr1).
  rewrite (bind_run _ _ _ _ _ Hrun1).
  destruct (remove_value_body_spec k w1 c1 Hc1 (static_parent_depth c c1 Hst1 Hpd))
    as (w2 & c2 & Hrun2 & _ & Hc2 & Hsh2 & Hres2 & _ & Hpr2).
  exists w2, c2. split; [exact Hrun2|]. split_and!.
  - exact Hc2.
  - eapply static_trans; [exact Hst1 | apply Hsh2].
  - rewrite Hres2, Hres1. reflexivity.
  - set_solver.
Qed.

Lemma clear_loop (b : bool) :
  forall (keys : list pyval) (w : World) (c : Cache),
    chain_ok c -> parent_depth c od ->
    NoDup keys -> resident c = list_to_set keys ->
    exists w' c',
      for_each keys (clear_key pm b) (w, c) = ((w', c'), Returns tt)
      /\ chain_ok c' /\ static c c' /\ resident c' = ∅
      /\ parent_resident c' ⊆ parent_resident c.
Proof.
  induction keys as [|k keys IH]; intros w c Hc Hpd Hnd Hres.
  - exists w, c. split; [reflexivity|].
    split_and!; [exact Hc | apply static_refl | exact Hres | reflexivity].
  - apply NoDup_cons in Hnd as [Hk Hnd].
    assert (Hin : k ∈ resident c) by (rewrite Hres; set_solver).
    unfold resident in Hin. apply elem_of_dom in Hin as [l Ek].
    destruct (clear_key_spec b k l w c Hc Hpd Ek)
      as (w1 & c1 & Hrun1 & Hc1 & Hst1 & Hres1 & Hpr1).
    destruct (IH w1 c1 Hc1 (static_parent_depth c c1 Hst1 Hpd) Hnd)
      as (w2 & c2 & Hrun2 & Hc2 & Hst2 & Hres2 & Hpr2).
    { rewrite Hres1, Hres. set_solver. }
    exists w2, c2. split.
    + cbn [for_each]. rewrite (bind_run _ _ _ _ _ Hrun1). exact Hrun2.
    + split_and!; [exact Hc2 | eapply static_trans; eassumption | exact Hres2 | set_solver].
Qed.

Lemma clear_body_spec (b : bool) (w : World) (c : Cache) :
  chain_ok c -> parent_depth c od ->
  exists w' c', clear_body pm b (w, c) = ((w', c'), Returns tt)
                /\ clear_post c (Returns tt) c'.
Proof.
  intros Hc Hpd. pose proof (chain_ok_tier c Hc) as Ht.
  unfold clear_body. rewrite bind_get_self. cbv beta. cache_simpl.
  assert (Hparent : exists w1 c1,
            (if has_parent c then
               if b then on_parent (m_clear pm b) else ret tt
             else ret tt) (w, c) = ((w1, c1), Returns tt)
            /\ chain_ok c1 /\ static c c1 /\ _item_dict c1 = _item_dict c
            /\ parent_resident c1 ⊆ parent_resident c).
  { assert (Hsame : chain_ok c /\ static c c /\ _item_dict c = _item_dict c
                    /\ parent_resident c ⊆ parent_resident c).
    { split_and!; [exact Hc | apply static_refl | reflexivity | reflexivity]. }
    destruct (has_parent c) eqn:Ehp; [|exists w, c; split; [reflexivity | exact Hsame]].
    destruct b; [|exists w, c; split; [reflexivity | exact Hsame]].
    destruct (has_parent_true c Ehp) as [p Ep].
    pose proof Hc as Hc'. apply chain_ok_unfold in Hc' as [_ Hp].
    rewrite Ep in Hp. destruct Hp as [Hp Hdis].
    unfold parent_depth in Hpd. rewrite Ep in Hpd.
    destruct (parent_clear true w p Hpd Hp) as (w1 & p1 & Hrun1 & _ & Hc1 & Hst1 & Hl1 & _).
    rewrite (on_parent_run _ _ _ _ _ _ _ Ep Hrun1).
    exists w1, (set_parent c p1). split; [reflexivity|]. split_and!.
    - apply chain_ok_unfold. split; [exact Ht|]. cache_simpl.
      split; [exact Hc1|].
      rewrite (empty_list_resident p1 (chain_ok_tier p1 Hc1) Hl1). set_solver.
    - apply shrink_static. apply (shrink_set_parent c p p1 Ep). apply Hst1.
    - reflexivity.
    - unfold parent_resident. cache_simpl.
      rewrite (empty_list_resident p1 (chain_ok_tier p1 Hc1) Hl1). set_solver. }
  destruct Hparent as (w1 & c1 & Hrun1 & Hc1 & Hst1 & Ed1 & Hpr1).
  rewrite (bind_run _ _ _ _ _ Hrun1). rewrite bind_get_self. cbv beta zeta. cache_simpl.
  destruct (clear_loop b ((map_to_list (_item_dict c1)).*1) w1 c1 Hc1
              (static_parent_depth c c1 Hst1 Hpd))
    as (w2 & c2 & Hrun2 & Hc2 & Hst2 & Hres2 & Hpr2).
  { apply NoDup_fst_map_to_list. }
  { unfold resident. apply leibniz_equiv. apply dom_alt. }
  exists w2, c2. split; [exact Hrun2|].
  unfold clear_post. split_and!.
  - reflexivity.
  - exact Hc2.
  - eapply static_trans; eassumption.
  - apply resident_empty_list; [apply chain_ok_tier; exact Hc2 | exact Hres2].
  - set_solver.
Qed.

End CacheBodies.

(** ** cache.py: the public methods *)

Section CachePublic.

Import Cache.

(** The bodies behave on caches of depth [d], given that the methods of
    the parent do. *)
Lemma bodies_ok (pm : methods) (od : option nat) (d : nat) :
  (forall d', od = Some d' -> ok_methods pm d') ->
  (forall c, depth c = d -> parent_depth c od) ->
  ok_methods (mkMethods (get_value_body pm) (put_value_body pm)
                        (remove_value_body pm) (clear_body pm)) d.
Proof.
  intros Hpm Hpd w c Hd Hc. specialize (Hpd c Hd). cbn [m_get_value m_put_value
    m_remove_value m_clear]. split_and!.
  - intros k.
    destruct (get_value_body_spec pm od Hpm k w c Hc Hpd) as (w' & c' & r & -> & H).
    exact H.
  - intros k.
    destruct (remove_value_body_spec pm od Hpm k w c (chain_ok_chain_ok_but k c Hc) Hpd)
      as (w' & c' & -> & H).
    exact H.
  - intros k v.
    destruct (put_value_body_spec pm od Hpm k v w c Hc Hpd) as (w' & c' & -> & H).
    exact H.
  - intros b.
    destruct (clear_body_spec pm od Hpm b w c Hc Hpd) as (w' & c' & -> & H).
    exact H.
Qed.

Lemma parent_depth_parent_depth_of (c : Cache) : parent_depth c (parent_depth_of c).
Proof.
  unfold parent_depth, parent_depth_of. rewrite depth_unfold.
  destruct (_parent_cache c); reflexivity.
Qed.

Lemma methods_at_ok (n : nat) : ok_methods (methods_at n) n.
Proof.
  induction n as [|n IH].
  - apply (bodies_ok no_methods None 0).
    + intros d' Hd'. discriminate.
    + intros c Hd. pose proof (parent_depth_parent_depth_of c) as H.
      unfold parent_depth_of in H. rewrite Hd in H. exact H.
  - apply (bodies_ok (methods_at n) (Some n) (S n)).
    + intros d' Hd'. inversion Hd'. subst d'. exact IH.
    + intros c Hd. pose proof (parent_depth_parent_depth_of c) as H.
      unfold parent_depth_of in H. rewrite Hd in H. exact H.
Qed.

Lemma parent_methods_ok (c : Cache) :
  forall d, parent_depth_of c = Some d -> ok_methods (parent_methods c) d.
Proof.
  intros d. unfold parent_depth_of, parent_methods.
  destruct (depth c) as [|n]; [discriminate|].
  intros H. inversion H. subst d. apply methods_at_ok.
Qed.

Lemma get_value_spec (k : pyval) (w : World) (c : Cache) :
  chain_ok c ->
  exists w' c' r, get_value k (w, c) = ((w', c'), r) /\ get_post c k r c'.
Proof.
  intros Hc. unfold get_value. cbn [snd].
  apply (get_value_body_spec _ _ (parent_methods_ok c) k w c Hc
           (parent_depth_parent_depth_of c)).
Qed.

Lemma put_value_spec (k v : pyval) (w : World) (c : Cache) :
  chain_ok c ->
  exists w' c', put_value k v (w, c) = ((w', c'), Returns tt)
                /\ put_post c k v (Returns tt) c'.
Proof.
  intros Hc. unfold put_value. cbn [snd].
  apply (put_value_body_spec _ _ (parent_methods_ok c) k v w c Hc
           (parent_depth_parent_depth_of c)).
Qed.

Lemma remove_value_spec (k : pyval) (w : World) (c : Cache) :
  chain_ok c ->
  exists w' c', remove_value k (w, c) = ((w', c'), Returns tt)
                /\ remove_post c k (Returns tt) c'.
Proof.
  intros Hc. unfold remove_value. cbn [snd].
  apply (remove_value_body_spec _ _ (parent_methods_ok c) k w c
           (chain_ok_chain_ok_but k c Hc) (parent_depth_parent_depth_of c)).
Qed.

Lemma trim_spec (extra_size : Q) (w : World) (c : Cache) :
  chain_ok c ->
  exists w' c', trim extra_size (w, c) = ((w', c'), Returns tt)
                /\ trim_post c extra_size (Returns tt) c'.
Proof.
  intros Hc. unfold trim. cbn [snd].
  apply (trim_body_spec _ _ (parent_methods_ok c) extra_size w c Hc
           (parent_depth_parent_depth_of c)).
Qed.

Lemma clear_spec (b : bool) (w : World) (c : Cache) :
  chain_ok c ->
  exists w' c', clear b (w, c) = ((w', c'), Returns tt)
                /\ clear_post c (Returns tt) c'.
Proof.
  intros Hc. unfold clear. cbn [snd].
  apply (clear_body_spec _ _ (parent_methods_ok c) b w c Hc
           (parent_depth_parent_depth_of c)).
Qed.

(** Every call keeps the chain consistent, and every call other than
    [get_value] returns. *)
Lemma run_op_chain_ok (o : op) (w : World) (c : Cache) :
  chain_ok c ->
  chain_ok (snd (fst (run_op o (w, c))))
  /\ static c (snd (fst (run_op o (w, c))))
  /\ (updates o -> snd (run_op o (w, c)) = Returns tt).
Proof.
  intros Hc. destruct o as [k v|k|k|e|b]; cbn [run_op updates].
  - destruct (put_value_spec k v w c Hc) as (w' & c' & -> & _ & Hc' & Hst & _).
    cbn [fst snd]. auto.
  - destruct (remove_value_spec k w c Hc) as (w' & c' & -> & _ & Hc' & Hsh & _).
    cbn [fst snd]. split_and!; [exact Hc' | apply Hsh | auto].
  - destruct (get_value_spec k w c Hc) as (w' & c' & r & Hrun & _ & Hc' & Hsh & _).
    unfold bind. rewrite Hrun. split_and!; [| |tauto].
    + destruct r; exact Hc'.
    + destruct r; apply Hsh.
  - destruct (trim_spec e w c Hc) as (w' & c' & -> & _ & Hc' & Hsh & _).
    cbn [fst snd]. split_and!; [exact Hc' | apply Hsh | auto].
  - destruct (clear_spec b w c Hc) as (w' & c' & -> & _ & Hc' & Hst & _).
    cbn [fst snd]. auto.
Qed.

Lemma run_ops_chain_ok (ops : list op) :
  forall (w : World) (c : Cache),
    chain_ok c ->
    chain_ok (snd (run_ops ops (w, c))) /\ static c (snd (run_ops ops (w, c))).
Proof.
  induction ops as [|o ops IH]; intros w c Hc.
  - split; [exact Hc | apply static_refl].
  - cbn [run_ops]. destruct (run_op_chain_ok o w c Hc) as (Hc1 & Hst1 & _).
    destruct (run_op o (w, c)) as [[w1 c1] r]. cbn [fst snd] in *.
    destruct (IH w1 c1 Hc1) as [Hc2 Hst2].
    split; [exact Hc2 | eapply static_trans; eassumption].
Qed.

Lemma chain_ok_init (st : CacheStore) (cap thr : Q) (pol : Item -> Q) (parent : option Cache) :
  match parent with Some p => chain_ok p | None => True end ->
  chain_ok (Cache_init st cap thr pol parent).
Proof.
  intros Hp. unfold Cache_init. cbn [chain_ok]. split.
  - unfold tier_ok. cache_simpl. split_and!.
    + apply NoDup_nil_2.
    + intros k l. rewrite lookup_empty. split; [discriminate|].
      intros [Hin _]. inversion Hin.
    + intros l Hin. inversion Hin.
    + reflexivity.
  - destruct parent as [p|]; [|exact I]. split; [exact Hp|]. set_solver.
Qed.

End CachePublic.

(** ** cache.py: size accounting and the two tiers *)

Section CacheInvariants.

Import Cache.









(** C2: a cache constructed over a consistent parent never shares a
    resident key with it, whatever calls have been made on it, and every
    call other than [get_value] returns. *)
Theorem no_key_in_two_tiers (st : CacheStore) (cap thr : Q) (pol : Item -> Q)
    (p : Cache) (ops : list op) (w : World) :
  chain_ok p ->
  let s := run_ops ops (w, Cache_init st cap thr pol (Some p)) in
  (exists p', _parent_cache (snd s) = Some p'
              /\ forall k, ~ (k ∈ resident (snd s) /\ k ∈ resident p'))
  /\ (forall o, updates o -> snd (run_op o s) = Returns tt).
Proof.
  intros Hp s.
  pose proof (chain_ok_init st cap thr pol (Some p) Hp) as Hc0.
  destruct (run_ops_chain_ok ops w _ Hc0) as [Hc Hst]. fold s in Hc, Hst.
  split.
  - destruct Hst as (_ & _ & _ & Hd). rewrite (depth_unfold (snd s)) in Hd.
    apply chain_ok_unfold in Hc as [_ Hc].
    destruct (_parent_cache (snd s)) as [p'|]; [|discriminate].
    exists p'. split; [reflexivity|]. destruct Hc as [_ Hdis].
    intros k [H1 H2]. apply (Hdis k H1 H2).
  - intros o Ho. destruct s as [w' c']. apply (run_op_chain_ok o w' c' Hc). exact Ho.
Qed.

Lemma no_key_in_two_tiers_witness :
  let w := mkWorld 0 (fun n => inject_Z (Z.of_nat n)) in
  let p := Cache_init MemoryCacheStore 4 1 POLICY_LRU None in
  let ops := [Put (PyStr "a") (PyInt 1); Put (PyStr "b") (PyInt 2);
              Put (PyStr "c") (PyInt 3); Clear false] in
  let s := run_ops ops (w, Cache_init MemoryCacheStore 2 1 POLICY_LRU (Some p)) in
  (exists p', _parent_cache (snd s) = Some p'
              /\ forall k, ~ (k ∈ resident (snd s) /\ k ∈ resident p'))
  /\ (forall o, updates o -> snd (run_op o s) = Returns tt).
Proof.
  intros w p ops.
  apply (no_key_in_two_tiers MemoryCacheStore 2 1 POLICY_LRU p ops w).
  apply chain_ok_init. exact I.
Defined.

End CacheInvariants.

(** ** cache.py: reading through to the parent, and clearing into it *)

Section CacheParent.

Import Cache.

Lemma m_get_value_parent_methods (c p : Cache) :
  _parent_cache c = Some p ->
  exists pm, m_get_value (parent_methods c) = get_value_body pm.
Proof.
  intros Ep. unfold parent_methods. rewrite depth_unfold, Ep.
  destruct (depth p); eexists; reflexivity.
Qed.

(** C3, what the code does instead: when the key is resident in the
    parent only, [get_value] on the child takes the value the parent
    returns for an item and calls [restore] on it, which raises
    [AttributeError] for every value that is true; a value that is false
    yields [None]. *)
Theorem get_value_from_parent (w : World) (c p : Cache) (k : pyval) (l : nat) :
  _parent_cache c = Some p ->
  _item_dict c !! k = None ->
  _item_dict p !! k = Some l -> (l < length (objects p))%nat ->
  snd (get_value k (w, c)) =
    if truthy (restore_value (_store p) k (stored_value (objects p !!! l)))
    then Raises AttributeError else Returns PyNone.
Proof.
  intros Ep Ek Ekp Hl.
  destruct (m_get_value_parent_methods c p Ep) as [pm Epm].
  unfold get_value, get_value_body. cbn [snd]. rewrite bind_get_self. cbv beta.
  cache_simpl. rewrite Ek, Ep, Epm.
  rewrite (bind_run _ _ _ _ _
             (on_parent_run _ _ _ _ _ _ _ Ep (get_value_body_hit pm k l w p Ekp Hl))).
  destruct (truthy _); reflexivity.
Qed.

Lemma get_value_from_parent_witness :
  let w := mkWorld 0 (fun n => inject_Z (Z.of_nat n)) in
  let parent := Cache_init MemoryCacheStore 4 1 POLICY_LRU None in
  let child := Cache_init MemoryCacheStore 2 1 POLICY_LRU (Some parent) in
  let s := run_ops [Put (PyStr "a") (PyInt 1); Put (PyStr "b") (PyInt 2);
                    Put (PyStr "c") (PyInt 3)] (w, child) in
  resident (snd s) = {[PyStr "b"; PyStr "c"]}
  /\ snd (get_value (PyStr "a") s) = Raises AttributeError.
Proof.
  intros w parent child s. split; [vm_compute; reflexivity|].
  assert (Es : s = (fst s, snd s)) by (destruct s; reflexivity).
  rewrite Es.
  rewrite (get_value_from_parent (fst s) (snd s)
             (default parent (_parent_cache (snd s))) (PyStr "a") 0);
    vm_compute; reflexivity.
Defined.

(** C4, what the code does instead: [clear(clear_parent=False)] empties
    the child, but [remove_value] takes each key out of the parent again
    right after [put_value] copied it there, so none of the keys of the
    child is resident in the parent afterwards. *)
Theorem clear_keeps_nothing (w : World) (c p : Cache) :
  chain_ok c -> _parent_cache c = Some p ->
  snd (clear false (w, c)) = Returns tt
  /\ resident (snd (fst (clear false (w, c)))) = ∅
  /\ exists p', _parent_cache (snd (fst (clear false (w, c)))) = Some p'
                /\ forall k, k ∈ resident c -> k ∉ resident p'.
Proof.
  intros Hc Ep.
  destruct (clear_spec false w c Hc) as (w' & c' & -> & _ & Hc' & Hst & Hl & Hpr).
  cbn [fst snd]. split; [reflexivity|].
  split; [apply empty_list_resident; [apply chain_ok_tier; exact Hc' | exact Hl]|].
  destruct Hst as (_ & _ & _ & Hd). rewrite !depth_unfold, Ep in Hd.
  apply chain_ok_unfold in Hc as [_ Hdis]. rewrite Ep in Hdis.
  unfold parent_resident in Hpr. rewrite Ep in Hpr.
  destruct (_parent_cache c') as [p'|]; [|discriminate].
  exists p'. split; [reflexivity|]. set_solver.
Qed.

Lemma clear_keeps_nothing_witness :
  let w := mkWorld 0 (fun n => inject_Z (Z.of_nat n)) in
  let parent := Cache_init MemoryCacheStore 4 1 POLICY_LRU None in
  let child := Cache_init MemoryCacheStore 2 1 POLICY_LRU (Some parent) in
  let s := run_ops [Put (PyStr "a") (PyInt 1)] (w, child) in
  PyStr "a" ∈ resident (snd s)
  /\ snd (clear false (fst s, snd s)) = Returns tt
  /\ resident (snd (fst (clear false (fst s, snd s)))) = ∅
  /\ exists p', _parent_cache (snd (fst (clear false (fst s, snd s)))) = Some p'
                /\ forall k, k ∈ resident (snd s) -> k ∉ resident p'.
Proof.
  intros w parent child s. split; [vm_compute; set_solver|].
  apply (clear_keeps_nothing (fst s) (snd s) (default parent (_parent_cache (snd s)))).
  - apply run_ops_chain_ok, chain_ok_init, chain_ok_init. exact I.
  - vm_compute. reflexivity.
Defined.

End CacheParent.

(** ** image.py: tiles through the cache *)

Section OpImageTiles.

Import Cache Image.

Lemma lift_run {A : Type} (m : M A) (n : nat) (s s' : World * Cache) (r : outcome A) :
  m s = (s', r) -> lift m (n, s) = ((n, s'), r).
Proof. intros H. unfold lift. cbn [fst snd]. rewrite H. reflexivity. Qed.

Lemma ibind_run {A B : Type} (m : IM A) (k : A -> IM B)
    (s s' : nat * (World * Cache)) (a : A) :
  m s = (s', Returns a) -> ibind m k s = k a s'.
Proof. intros H. unfold ibind. rewrite H. reflexivity. Qed.

(** A tile that is resident and not [None] is returned from the cache, and
    [compute_tile] is not called. *)
Lemma get_tile_hit (img : OpImage) (compute_tile : Z -> Z -> Z * Z * Z * Z -> M pyval)
    (tile_x tile_y : Z) (n : nat) (w : World) (c : Cache) (l : nat) (t : pyval) :
  _tile_cache img = true -> chain_ok c ->
  _item_dict c !! PyStr (get_tile_id (base img) tile_x tile_y) = Some l ->
  restore_value (_store c) (PyStr (get_tile_id (base img) tile_x tile_y))
                (stored_value (objects c !!! l)) = t ->
  t <> PyNone ->
  exists w2 c2,
    get_tile img compute_tile tile_x tile_y (n, (w, c)) = ((n, (w2, c2)), Returns t).
Proof.
  intros Hcache Hc Ek Ht Hnone.
  destruct (get_value_spec (PyStr (get_tile_id (base img) tile_x tile_y)) w c Hc)
    as (w2 & c2 & r & Hrun & _ & _ & _ & _ & _ & _ & Hhit & _).
  rewrite (Hhit l Ek), Ht in Hrun.
  exists w2, c2. unfold get_tile. rewrite Hcache.
  rewrite (ibind_run _ _ _ _ _ (lift_run _ n _ _ _ Hrun)).
  rewrite bool_decide_eq_false_2 by exact Hnone. reflexivity.
Qed.

(** C8, the counterexample: an image whose [compute_tile] returns [None]
    stores [None]; the second [get_tile] takes it for a miss and calls
    [compute_tile] once more. *)
Lemma get_tile_none_recomputed :
  let w := mkWorld 0 (fun n => inject_Z (Z.of_nat n)) in
  let c := Cache_init MemoryCacheStore 1000 (3 # 4) POLICY_LRU None in
  let img := mkOpImage (mkAbstractTiledImage 512 512 256 256 2 2 "img" None None) true in
  let compute_tile := fun (_ _ : Z) (_ : Z * Z * Z * Z) => (ret PyNone : M pyval) in
  let first := get_tile img compute_tile 0 0 (O, (w, c)) in
  let second := get_tile img compute_tile 0 0 (fst first) in
  snd first = Returns PyNone /\ fst (fst first) = 1%nat
  /\ snd second = Returns PyNone /\ fst (fst second) = 2%nat
  /\ ~ (fst (fst second) = fst (fst first)).
Proof. vm_compute. repeat split; discriminate. Qed.

(** C8, as the code has it: when the first [get_tile] returns a tile that
    is not [None], the second returns the same tile and makes no call of
    [compute_tile], whatever [compute_tile] would do. *)
Theorem get_tile_again (img : OpImage)
    (compute_tile compute_tile' : Z -> Z -> Z * Z * Z * Z -> M pyval)
    (tile_x tile_y : Z) (n n1 : nat) (w w1 : World) (c c1 : Cache) (t : pyval) :
  _tile_cache img = true -> chain_ok c -> lawful_store (_store c) ->
  (forall rectangle, uses_cache (compute_tile tile_x tile_y rectangle)) ->
  get_tile img compute_tile tile_x tile_y (n, (w, c)) = ((n1, (w1, c1)), Returns t) ->
  t <> PyNone ->
  exists w2 c2,
    get_tile img compute_tile' tile_x tile_y (n1, (w1, c1)) = ((n1, (w2, c2)), Returns t).
Proof.
  intros Hcache Hc Hlaw Huse Hfirst Hnone.
  set (tile_id := PyStr (get_tile_id (base img) tile_x tile_y)) in *.
  destruct (get_value_spec tile_id w c Hc)
    as (w' & c' & r & Hrun & _ & Hc' & Hsh & Hl' & Hd' & _ & Hhit & Hmiss).
  unfold get_tile in Hfirst. fold tile_id in Hfirst. rewrite Hcache in Hfirst.
  unfold ibind at 1 in Hfirst. rewrite (lift_run _ n _ _ _ Hrun) in Hfirst.
  destruct r as [v|e|]; [|discriminate..].
  cbn [andb] in Hfirst.
  destruct (bool_decide (v = PyNone)) eqn:Ev.
  - (* a miss: the tile is computed and put *)
    cbn [negb] in Hfirst. unfold tile_size in Hfirst.
    unfold ibind at 1, call_compute_tile in Hfirst. cbn [fst snd] in Hfirst.
    destruct (Huse (_tile_width (base img) * tile_x, _tile_height (base img) * tile_y,
                    _tile_width (base img), _tile_height (base img)) (w', c') Hc')
      as [Hc2 Hst2].
    destruct (compute_tile tile_x tile_y _ (w', c')) as [[w2 c2] r2].
    cbn [fst snd] in Hc2, Hst2.
    destruct r2 as [tile|e|]; [|discriminate..].
    destruct (put_value_spec tile_id tile w2 c2 Hc2)
      as (w3 & c3 & Hput & _ & Hc3 & Hst3 & (l & Ek3 & Hsv3 & _) & _).
    unfold ibind at 1 in Hfirst. rewrite (lift_run _ _ _ _ _ Hput) in Hfirst.
    unfold iret in Hfirst. inversion Hfirst. subst n1 w1 c1 t.
    apply (get_tile_hit img compute_tile' tile_x tile_y (S n) w3 c3 l tile Hcache Hc3 Ek3);
      [|exact Hnone].
    fold tile_id. rewrite Hsv3.
    assert (Hstore : _store c3 = _store c2) by apply Hst3.
    assert (Hstore' : _store c2 = _store c).
    { destruct Hst2 as (E2 & _). destruct Hsh as ((E1 & _) & _). cbn [snd] in E2. congruence. }
    rewrite Hstore, Hstore'. apply Hlaw.
  - (* a hit *)
    cbn [negb] in Hfirst. unfold iret in Hfirst. inversion Hfirst. subst n1 w1 c1 t.
    destruct (_item_dict c !! tile_id) as [l|] eqn:Ek.
    + specialize (Hhit l eq_refl). injection Hhit as Hv.
      destruct (tier_ok_lookup c tile_id l (chain_ok_tier c Hc) Ek) as (Hin & _ & _).
      apply (get_tile_hit img compute_tile' tile_x tile_y n w' c' l v Hcache Hc');
        [rewrite Hd'; exact Ek | | exact Hnone].
      fold tile_id. rewrite Hv.
      destruct Hsh as ((Hs & _) & _ & _ & Hsame & _).
      rewrite Hs. destruct (Hsame l) as (_ & -> & _); [rewrite Hl'; exact Hin|].
      reflexivity.
    + exfalso. apply Hnone. apply (Hmiss eq_refl v). reflexivity.
Qed.

Lemma get_tile_again_witness :
  let w := mkWorld 0 (fun n => inject_Z (Z.of_nat n)) in
  let c := Cache_init MemoryCacheStore 1000 (3 # 4) POLICY_LRU None in
  let img := mkOpImage (mkAbstractTiledImage 512 512 256 256 2 2 "img" None None) true in
  let compute_tile := fun (x y : Z) (_ : Z * Z * Z * Z) =>
                        (ret (PyObj (Z.to_nat (2 * y + x))) : M pyval) in
  let first := get_tile img compute_tile 1 1 (O, (w, c)) in
  snd first = Returns (PyObj 3)
  /\ exists w2 c2,
       get_tile img compute_tile 1 1 (fst first)
       = ((fst (fst first), (w2, c2)), Returns (PyObj 3)).
Proof.
  intros w c img compute_tile first.
  assert (Hr : snd first = Returns (PyObj 3)) by (vm_compute; reflexivity).
  split; [exact Hr|]. subst first.
  destruct (get_tile img compute_tile 1 1 (O, (w, c))) as [[n1 [w1 c1]] r] eqn:Hfirst.
  cbn [fst snd] in *. subst r.
  apply (get_tile_again img compute_tile compute_tile 1 1 O n1 w w1 c c1 (PyObj 3)).
  - reflexivity.
  - apply chain_ok_init. exact I.
  - intros k v. reflexivity.
  - intros rectangle s Hs. split; [exact Hs | apply static_refl].
  - exact Hfirst.
  - discriminate.
Defined.

End OpImageTiles.

(** ** cache.py: least recently used first *)

Section CacheLru.

Import Cache.
















End CacheLru.
